(** * Field configuration and rendering subsystem of the CMS admin client

    A shallow embedding of the schema-driven form engine: the input-mask
    helpers, key filters, blur-time validation, number clamping and password
    strength of [src/lib/field-renderer.tsx]; the save-time default fill and
    the [apiId] derivation of the field configuration dialog; and the
    field-type registry mapping of the [useFieldTypes] hook.

    JavaScript strings are modelled by [string] (sequences of ASCII
    characters), JavaScript numbers by IEEE 754 values ([spec_float]),
    untyped objects by finite maps from property names to [JsValue], typed
    objects ([Field], [FieldAttributes], [FieldValidations]) by records with
    optional fields. Event handlers return what they pass to their callback
    and what they write to the console. The two host functions the handlers
    call, [parseFloat] and the [RegExp] constructor, are parameters. *)

From Stdlib Require Import ZArith List Bool Lia.
From Stdlib Require Import Strings.Ascii Strings.String.
From Stdlib Require Import Floats.SpecFloat.
From stdpp Require Import base option list strings gmap.

Local Open Scope string_scope.

(* ********************************************************************* *)
(** * Part I: the model *)
(* ********************************************************************* *)

(* ===================================================================== *)
(** ** JavaScript strings and character classes *)
(* ===================================================================== *)

Module JsString.

(** Code unit of a character. *)
Definition code (c : ascii) : nat := nat_of_ascii c.

Definition inRange (lo hi : ascii) (c : ascii) : bool :=
  (code lo <=? code c)%nat && (code c <=? code hi)%nat.

(** [\d] and [[0-9]] *)
Definition isDigit (c : ascii) : bool := inRange "0" "9" c.
(** [[A-Z]] *)
Definition isUpper (c : ascii) : bool := inRange "A" "Z" c.
(** [[a-z]] *)
Definition isLower (c : ascii) : bool := inRange "a" "z" c.
(** [[a-zA-Z]] *)
Definition isLetter (c : ascii) : bool := isLower c || isUpper c.
(** [[a-zA-Z0-9]] *)
Definition isAlnum (c : ascii) : bool := isLetter c || isDigit c.
(** [[0-9a-fA-F]] *)
Definition isHex (c : ascii) : bool :=
  isDigit c || inRange "a" "f" c || inRange "A" "F" c.
(** [\s] on ASCII: tab, line feed, vertical tab, form feed, carriage
    return and space. *)
Definition isSpace (c : ascii) : bool :=
  inRange "009" "013" c || Ascii.eqb c " ".

(** [String.prototype.toLowerCase] on one ASCII character. *)
Definition lowerChar (c : ascii) : ascii :=
  if isUpper c then ascii_of_nat (code c + 32) else c.

Fixpoint toLowerCase (s : string) : string :=
  match s with
  | EmptyString => EmptyString
  | String c rest => String (lowerChar c) (toLowerCase rest)
  end.

(** [s[i]]: the character at index [i], [None] standing for [undefined]. *)
Definition charAt (s : string) (i : nat) : option ascii := String.get i s.

(** Truthiness of a string: the empty string is the only falsy one. *)
Definition nonEmpty (s : string) : bool :=
  match s with EmptyString => false | _ => true end.

(** [RegExp.prototype.test] for a one-character class without anchors:
    some character of the subject belongs to the class. *)
Fixpoint anyChar (p : ascii -> bool) (s : string) : bool :=
  match s with
  | EmptyString => false
  | String c rest => p c || anyChar p rest
  end.

Fixpoint allChars (p : ascii -> bool) (s : string) : bool :=
  match s with
  | EmptyString => true
  | String c rest => p c && allChars p rest
  end.

End JsString.

(* ===================================================================== *)
(** ** Input mask helpers ([applyMask], [unmaskValue]) *)
(* ===================================================================== *)

Module Mask.
Import JsString.

(** The three placeholder characters of a mask pattern. *)
Definition isSlot (maskChar : ascii) : bool :=
  Ascii.eqb maskChar "9" || Ascii.eqb maskChar "a" || Ascii.eqb maskChar "*".

Definition single (c : ascii) : string := String c EmptyString.

(** Loop state of [applyMask]: the output built so far and the index of
    the next unconsumed input character. *)
Record MaskState := mkMaskState { maskedValue : string; valueIndex : nat }.

(** One iteration of the [for] loop over the mask. *)
Definition applyMaskStep (value slotChar : string) (st : MaskState)
    (maskChar : ascii) : MaskState :=
  let out := maskedValue st in
  let vi := valueIndex st in
  match charAt value vi with
  | None =>
      if isSlot maskChar
      then mkMaskState (out ++ slotChar) vi
      else mkMaskState (out ++ single maskChar) vi
  | Some valueChar =>
      if Ascii.eqb maskChar "9" then
        if isDigit valueChar
        then mkMaskState (out ++ single valueChar) (S vi)
        else mkMaskState (out ++ slotChar) vi
      else if Ascii.eqb maskChar "a" then
        if isLetter valueChar
        then mkMaskState (out ++ single valueChar) (S vi)
        else mkMaskState (out ++ slotChar) vi
      else if Ascii.eqb maskChar "*" then
        mkMaskState (out ++ single valueChar) (S vi)
      else
        mkMaskState (out ++ single maskChar)
                    (if Ascii.eqb valueChar maskChar then S vi else vi)
  end.

Definition applyMask (value mask slotChar : string) : string :=
  if negb (nonEmpty mask) || negb (nonEmpty value) then value
  else maskedValue
         (fold_left (applyMaskStep value slotChar)
                    (list_ascii_of_string mask)
                    (mkMaskState EmptyString 0)).

(** The default value of the [slotChar] parameter. *)
Definition defaultSlotChar : string := "_".

(** Body of the loop of [unmaskValue] at index [i]: keep [valueChar] when
    the mask character at the same index accepts it. *)
Definition keepsChar (mask : string) (i : nat) (valueChar : ascii) : bool :=
  match charAt mask i with
  | None => false
  | Some maskChar =>
      (Ascii.eqb maskChar "9" && isDigit valueChar)
      || (Ascii.eqb maskChar "a" && isLetter valueChar)
      || Ascii.eqb maskChar "*"
  end.

Fixpoint unmaskFrom (mask : string) (i : nat) (value : string) : string :=
  match value with
  | EmptyString => EmptyString
  | String valueChar rest =>
      if keepsChar mask i valueChar
      then String valueChar (unmaskFrom mask (S i) rest)
      else unmaskFrom mask (S i) rest
  end.

Definition unmaskValue (value mask : string) : string :=
  if negb (nonEmpty mask) || negb (nonEmpty value) then value
  else unmaskFrom mask 0 value.

End Mask.

(* ===================================================================== *)
(** ** Regular expressions of the renderer's key filters *)
(* ===================================================================== *)

Module Regex.

(** The fragment of regular expressions that the literals of the source
    use: character classes, concatenation, alternation and iteration. *)
Inductive Regex : Type :=
| Void
| Eps
| Class (p : ascii -> bool)
| Seq (r1 r2 : Regex)
| Alt (r1 r2 : Regex)
| Star (r : Regex).

(** [c] as a one-character class, [r?] and [r{0,n}]. *)
Definition Chr (c : ascii) : Regex := Class (Ascii.eqb c).
Definition Opt (r : Regex) : Regex := Alt Eps r.
Fixpoint UpTo (n : nat) (r : Regex) : Regex :=
  match n with
  | O => Eps
  | S k => Opt (Seq r (UpTo k r))
  end.

(** The language of a regular expression. *)
Inductive Matches : Regex -> list ascii -> Prop :=
| MEps : Matches Eps []
| MClass p c : p c = true -> Matches (Class p) [c]
| MSeq r1 r2 s1 s2 :
    Matches r1 s1 -> Matches r2 s2 -> Matches (Seq r1 r2) (s1 ++ s2)%list
| MAltL r1 r2 s : Matches r1 s -> Matches (Alt r1 r2) s
| MAltR r1 r2 s : Matches r2 s -> Matches (Alt r1 r2) s
| MStarNil r : Matches (Star r) []
| MStarApp r s1 s2 :
    Matches r s1 -> Matches (Star r) s2 -> Matches (Star r) (s1 ++ s2)%list.

(** The matcher: Brzozowski derivatives. *)
Fixpoint nullable (r : Regex) : bool :=
  match r with
  | Void => false
  | Eps => true
  | Class _ => false
  | Seq r1 r2 => nullable r1 && nullable r2
  | Alt r1 r2 => nullable r1 || nullable r2
  | Star _ => true
  end.

Fixpoint deriv (c : ascii) (r : Regex) : Regex :=
  match r with
  | Void => Void
  | Eps => Void
  | Class p => if p c then Eps else Void
  | Seq r1 r2 =>
      if nullable r1
      then Alt (Seq (deriv c r1) r2) (deriv c r2)
      else Seq (deriv c r1) r2
  | Alt r1 r2 => Alt (deriv c r1) (deriv c r2)
  | Star r1 => Seq (deriv c r1) (Star r1)
  end.

Fixpoint matchesb (r : Regex) (s : list ascii) : bool :=
  match s with
  | [] => nullable r
  | c :: rest => matchesb (deriv c r) rest
  end.

(** [/^r$/.test(s)]: the whole subject belongs to the language of [r]. *)
Definition test (r : Regex) (s : string) : bool :=
  matchesb r (list_ascii_of_string s).

End Regex.

(* ===================================================================== *)
(** ** Schema: field kinds, attributes, validations, fields *)
(* ===================================================================== *)

(** JavaScript numbers: IEEE 754 binary64 values. *)
Definition JsNumber : Type := spec_float.

Module JsNum.

(** The double nearest to an integer (exact below 2^53). *)
Definition ofZ (z : Z) : JsNumber := binary_normalize 53 1024 z 0 false.
Definition ofNat (n : nat) : JsNumber := ofZ (Z.of_nat n).

(** [x < y] and [x > y]; both are false when an operand is NaN. *)
Definition lt (x y : JsNumber) : bool := SFltb x y.
Definition gt (x y : JsNumber) : bool := SFltb y x.

(** Truthiness: every number but [+0], [-0] and [NaN]. *)
Definition truthy (x : JsNumber) : bool :=
  match x with
  | S754_zero _ => false
  | S754_nan => false
  | _ => true
  end.

End JsNum.

(** The string enum [FieldTypeEnum] of the store. *)
Inductive FieldTypeEnum : Type :=
| TEXT | NUMBER | DATE | IMAGE | RICH_TEXT | MASK | CALENDAR | EDITOR
| PASSWORD | AUTOCOMPLETE | CASCADE_SELECT | DROPDOWN | FILE
| MULTI_STATE_CHECKBOX | MULTI_SELECT | MENTION | TEXTAREA | OTP
| RICH_TEXT_BLOCKS | RICH_TEXT_MARKDOWN | BOOLEAN | JSON | EMAIL | MEDIA
| ENUMERATION | RELATION | UID | COMPONENT | DYNAMIC_ZONE | INPUT_MASK
| INPUT_TEXTAREA.

(** The string value of each member. *)
Definition enumValue (k : FieldTypeEnum) : string :=
  match k with
  | TEXT => "text"
  | NUMBER => "number"
  | DATE => "date"
  | IMAGE => "image"
  | RICH_TEXT => "rich_text"
  | MASK => "mask"
  | CALENDAR => "calendar"
  | EDITOR => "editor"
  | PASSWORD => "password"
  | AUTOCOMPLETE => "autocomplete"
  | CASCADE_SELECT => "cascade_select"
  | DROPDOWN => "dropdown"
  | FILE => "file"
  | MULTI_STATE_CHECKBOX => "multi_state_checkbox"
  | MULTI_SELECT => "multi_select"
  | MENTION => "mention"
  | TEXTAREA => "textarea"
  | OTP => "otp"
  | RICH_TEXT_BLOCKS => "rich_text_blocks"
  | RICH_TEXT_MARKDOWN => "rich_text_markdown"
  | BOOLEAN => "boolean"
  | JSON => "json"
  | EMAIL => "email"
  | MEDIA => "media"
  | ENUMERATION => "enumeration"
  | RELATION => "relation"
  | UID => "uid"
  | COMPONENT => "component"
  | DYNAMIC_ZONE => "dynamic_zone"
  | INPUT_MASK => "input_mask"
  | INPUT_TEXTAREA => "input_textarea"
  end.

(** The members in declaration order, as [Object.values] enumerates them. *)
Definition enumMembers : list FieldTypeEnum :=
  [ TEXT; NUMBER; DATE; IMAGE; RICH_TEXT; MASK; CALENDAR; EDITOR;
    PASSWORD; AUTOCOMPLETE; CASCADE_SELECT; DROPDOWN; FILE;
    MULTI_STATE_CHECKBOX; MULTI_SELECT; MENTION; TEXTAREA; OTP;
    RICH_TEXT_BLOCKS; RICH_TEXT_MARKDOWN; BOOLEAN; JSON; EMAIL; MEDIA;
    ENUMERATION; RELATION; UID; COMPONENT; DYNAMIC_ZONE; INPUT_MASK;
    INPUT_TEXTAREA ].

(** [FieldAttributes], restricted to the properties read by the handlers
    modelled below; an absent optional property is [None]. *)
Module FieldAttributes.
Record t : Type := mk {
  keyfilter : option string;
  mask : option string;
  slotChar : option string;
  invalid : option bool;
  min : option JsNumber;
  max : option JsNumber
}.
Definition empty : t := mk None None None None None None.
End FieldAttributes.

(** [FieldValidations]. *)
Module FieldValidations.
Record t : Type := mk {
  required : option bool;
  minLength : option JsNumber;
  maxLength : option JsNumber;
  regex : option string;
  minValue : option JsNumber;
  maxValue : option JsNumber;
  minFractionDigits : option JsNumber;
  maxFractionDigits : option JsNumber;
  apiUrl : option string;
  mask : option string;
  unmask : option bool
}.
Definition empty : t := mk None None None None None None None None None None None.
End FieldValidations.

(** [Field], restricted to the properties read by the renderer. *)
Module Field.
Record t : Type := mk {
  name : string;
  apiId : string;
  type : FieldTypeEnum;
  required : bool;
  displayName : option string;
  description : option string;
  isVisible : option bool;
  attributes : option FieldAttributes.t;
  validations : option FieldValidations.t
}.
End Field.

(** Truthiness of optional typed properties ([undefined] is falsy). *)
Definition truthyString (s : option string) : bool :=
  match s with Some v => JsString.nonEmpty v | None => false end.
Definition truthyBool (b : option bool) : bool :=
  match b with Some v => v | None => false end.

(** The effect of an event handler on the [onChange] callback it was given. *)
Inductive Callback (A : Type) : Type :=
| NotInvoked
| Invoked (arg : A).
Arguments NotInvoked {A}.
Arguments Invoked {A} arg.

(** The value held by the parent of a controlled input after an event: it
    changes only through [onChange]. *)
Definition valueAfter {A : Type} (current : A) (cb : Callback A) : A :=
  match cb with
  | NotInvoked => current
  | Invoked v => v
  end.

(* ===================================================================== *)
(** ** Key filters of the text input *)
(* ===================================================================== *)

Module KeyFilter.
Import JsString Regex.

Definition digit : Regex := Class isDigit.

(** [/^-?\d*$/] *)
Definition reInt : Regex := Seq (Opt (Chr "-")) (Star digit).
(** [/^\d*$/] *)
Definition rePint : Regex := Star digit.
(** [/^-?\d*\.?\d*$/] *)
Definition reNum : Regex :=
  Seq (Opt (Chr "-")) (Seq (Star digit) (Seq (Opt (Chr ".")) (Star digit))).
(** [/^\d*\.?\d*$/] *)
Definition rePnum : Regex := Seq (Star digit) (Seq (Opt (Chr ".")) (Star digit)).
(** [/^-?\d*\.?\d{0,2}$/] *)
Definition reMoney : Regex :=
  Seq (Opt (Chr "-")) (Seq (Star digit) (Seq (Opt (Chr ".")) (UpTo 2 digit))).
(** [/^[0-9a-fA-F]*$/] *)
Definition reHex : Regex := Star (Class isHex).
(** [/^[a-zA-Z]*$/] *)
Definition reAlpha : Regex := Star (Class isLetter).
(** [/^[a-zA-Z0-9]*$/] *)
Definition reAlphanum : Regex := Star (Class isAlnum).

(** The [onChange] handler of the TEXT input: [inputValue] is
    [e.target.value], the value the edit proposes. *)
Definition textOnChange (attributes : FieldAttributes.t) (inputValue : string)
    : Callback string :=
  let reject (re : Regex) : Callback string :=
    if negb (test re inputValue) then NotInvoked else Invoked inputValue in
  if truthyString (FieldAttributes.keyfilter attributes) then
    match FieldAttributes.keyfilter attributes with
    | Some "int" => reject reInt
    | Some "pint" => reject rePint
    | Some "num" => reject reNum
    | Some "pnum" => reject rePnum
    | Some "money" => reject reMoney
    | Some "hex" => reject reHex
    | Some "alpha" => reject reAlpha
    | Some "alphanum" => reject reAlphanum
    | Some "email" => Invoked inputValue
    | _ => Invoked inputValue
    end
  else Invoked inputValue.

(** *** The key-filter classes in words *)

(** The eight restricting classes of the [keyfilter] attribute. *)
Inductive KeyClass : Type :=
| KInt | KPint | KNum | KPnum | KMoney | KHex | KAlpha | KAlphanum.

Definition className (k : KeyClass) : string :=
  match k with
  | KInt => "int"
  | KPint => "pint"
  | KNum => "num"
  | KPnum => "pnum"
  | KMoney => "money"
  | KHex => "hex"
  | KAlpha => "alpha"
  | KAlphanum => "alphanum"
  end.

(** The regular expression the handler tests for each class. *)
Definition classPattern (k : KeyClass) : Regex :=
  match k with
  | KInt => reInt
  | KPint => rePint
  | KNum => reNum
  | KPnum => rePnum
  | KMoney => reMoney
  | KHex => reHex
  | KAlpha => reAlpha
  | KAlphanum => reAlphanum
  end.

Definition allOf (p : ascii -> bool) (w : list ascii) : Prop :=
  Forall (fun c => p c = true) w.

(** Nothing, or the single character [c]. *)
Definition optional (c : ascii) (w : list ascii) : Prop := w = [] \/ w = [c].

(** What each class admits, read off its description: an optionally signed
    run of digits; a run of digits; an optionally signed decimal number (a
    run of digits, an optional point, a run of digits); the same unsigned;
    the same with at most two digits after the point; hexadecimal digits;
    letters; letters and digits. *)
Definition admits (k : KeyClass) (w : list ascii) : Prop :=
  match k with
  | KInt =>
      exists sign ds, w = (sign ++ ds)%list /\ optional "-" sign /\ allOf isDigit ds
  | KPint => allOf isDigit w
  | KNum =>
      exists sign int point frac,
        w = (sign ++ int ++ point ++ frac)%list /\ optional "-" sign
        /\ allOf isDigit int /\ optional "." point /\ allOf isDigit frac
  | KPnum =>
      exists int point frac,
        w = (int ++ point ++ frac)%list
        /\ allOf isDigit int /\ optional "." point /\ allOf isDigit frac
  | KMoney =>
      exists sign int point frac,
        w = (sign ++ int ++ point ++ frac)%list /\ optional "-" sign
        /\ allOf isDigit int /\ optional "." point
        /\ allOf isDigit frac /\ (length frac <= 2)%nat
  | KHex => allOf isHex w
  | KAlpha => allOf isLetter w
  | KAlphanum => allOf isAlnum w
  end.

End KeyFilter.

(* ===================================================================== *)
(** ** Password strength estimate *)
(* ===================================================================== *)

Module Password.
Import JsString.

Inductive Strength : Type := weak | medium | strong.

(** [[^A-Za-z0-9]] *)
Definition isSpecial (c : ascii) : bool := negb (isAlnum c).

(** [getPasswordStrength]: the score is accumulated test after test. *)
Definition getPasswordStrength (password : string) : Strength :=
  if negb (nonEmpty password) then weak
  else
    let score := 0%nat in
    let score := if (8 <=? String.length password)%nat then (score + 1)%nat else score in
    let score := if (12 <=? String.length password)%nat then (score + 1)%nat else score in
    let score := if anyChar isUpper password then (score + 1)%nat else score in
    let score := if anyChar isLower password then (score + 1)%nat else score in
    let score := if anyChar isDigit password then (score + 1)%nat else score in
    let score := if anyChar isSpecial password then (score + 1)%nat else score in
    if (score <? 3)%nat then weak
    else if (score <? 5)%nat then medium
    else strong.

(** The six criteria, as the description lists them. *)
Definition criteria (password : string) : list bool :=
  [ (8 <=? String.length password)%nat;
    (12 <=? String.length password)%nat;
    anyChar isUpper password;
    anyChar isLower password;
    anyChar isDigit password;
    anyChar isSpecial password ].

(** Number of satisfied criteria. *)
Definition satisfied (password : string) : nat :=
  List.length (List.filter (fun b : bool => b) (criteria password)).

(** Classification of a score. *)
Definition classify (score : nat) : Strength :=
  if (score <? 3)%nat then weak
  else if (score <? 5)%nat then medium
  else strong.

End Password.

(* ===================================================================== *)
(** ** Field type registry: [mapFieldTypeNameToEnum] *)
(* ===================================================================== *)

(** What a function writes to the console. *)
Inductive ConsoleEntry : Type :=
| ConsoleLog (message : string)
| ConsoleWarn (message : string)
| ConsoleError (message : string).

Module Registry.

(** [Object.values(FieldTypeEnum)] *)
Definition enumValues : list string := List.map enumValue enumMembers.

(** [Array.prototype.includes] on strings. *)
Definition includes (values : list string) (x : string) : bool :=
  List.existsb (String.eqb x) values.

(** [name as FieldTypeEnum], for a name that is the value of a member. *)
Definition asEnum (name : string) : option FieldTypeEnum :=
  List.find (fun k => String.eqb (enumValue k) name) enumMembers.

Definition notFoundWarning (name : string) : ConsoleEntry :=
  ConsoleWarn ("Field type " ++ name ++ " not found in FieldTypeEnum, defaulting to TEXT").

(** The mapping returns a kind and the console output it produced. The
    unused local [enumKey] of the source is left out. The cast
    [name as FieldTypeEnum] is [asEnum], which always finds a member there
    (lemma [asEnum_includes] below). *)
Definition mapFieldTypeNameToEnum (name : string)
    : FieldTypeEnum * list ConsoleEntry :=
  if includes enumValues name then
    match asEnum name with
    | Some k => (k, [])
    | None => (TEXT, [])
    end
  else (TEXT, [notFoundWarning name]).

End Registry.

(* ===================================================================== *)
(** ** JavaScript values *)
(* ===================================================================== *)

(** Values of type [any]: the current value of a field, the properties of
    the form data. *)
Unset Elimination Schemes.
Inductive JsValue : Type :=
| JUndefined
| JNull
| JBool (b : bool)
| JNum (n : JsNumber)
| JStr (s : string)
| JObj (props : list (string * JsValue))
| JArr (items : list JsValue).
Set Elimination Schemes.

Module Js.

(** ToBoolean. *)
Definition truthy (v : JsValue) : bool :=
  match v with
  | JUndefined => false
  | JNull => false
  | JBool b => b
  | JNum n => JsNum.truthy n
  | JStr s => JsString.nonEmpty s
  | JObj _ => true
  | JArr _ => true
  end.

(** [v !== undefined] *)
Definition isDefined (v : JsValue) : bool :=
  match v with
  | JUndefined => false
  | _ => true
  end.

(** [a || b] *)
Definition or (a b : JsValue) : JsValue := if truthy a then a else b.

End Js.

(* ===================================================================== *)
(** ** The renderer: dispatch and visibility *)
(* ===================================================================== *)

Module Renderer.

(** The widget each branch of [renderField] returns. *)
Inductive Widget : Type :=
| MaskedInput | TextInput | RichTextArea | NumberInput | BooleanSwitch
| DatePicker | JsonEditor | EmailInput | PasswordInput | AutocompleteInput
| CascadeSelectBox | DropdownBox | MediaUpload | TextAreaInput | PlainInput.

(** The rendered element: the widget, the common properties it receives,
    its label and the value it displays. *)
Record Element : Type := mkElement {
  widget : Widget;
  id : string;
  required : bool;
  label : string;
  current : JsValue
}.

(** The [switch] over [field.type]. *)
Definition widgetOf (type : FieldTypeEnum) : Widget :=
  match type with
  | INPUT_MASK => MaskedInput
  | TEXT => TextInput
  | RICH_TEXT_BLOCKS | RICH_TEXT_MARKDOWN => RichTextArea
  | NUMBER => NumberInput
  | BOOLEAN => BooleanSwitch
  | DATE => DatePicker
  | JSON => JsonEditor
  | EMAIL => EmailInput
  | PASSWORD => PasswordInput
  | AUTOCOMPLETE => AutocompleteInput
  | CASCADE_SELECT => CascadeSelectBox
  | DROPDOWN => DropdownBox
  | MEDIA => MediaUpload
  | INPUT_TEXTAREA => TextAreaInput
  | _ => PlainInput
  end.

(** The [onChange] handler of the INPUT_MASK input: the raw value of the
    input is masked with [attributes.mask || ''] and
    [attributes.slotChar || '_'] and passed on. *)
Definition maskOnChange (attributes : FieldAttributes.t) (rawValue : string)
    : Callback string :=
  let mask :=
    if truthyString (FieldAttributes.mask attributes)
    then default EmptyString (FieldAttributes.mask attributes) else EmptyString in
  let slotChar :=
    if truthyString (FieldAttributes.slotChar attributes)
    then default EmptyString (FieldAttributes.slotChar attributes)
    else Mask.defaultSlotChar in
  Invoked (Mask.applyMask rawValue mask slotChar).

(** [renderField]; [None] is the [null] it returns for a hidden field. *)
Definition renderField (field : Field.t) (value : JsValue) : option Element :=
  match Field.isVisible field with
  | Some false => None
  | _ =>
      let attributes := default FieldAttributes.empty (Field.attributes field) in
      let validations := default FieldValidations.empty (Field.validations field) in
      Some {|
        widget := widgetOf (Field.type field);
        id := Field.apiId field;
        required := truthyBool (FieldValidations.required validations) || Field.required field;
        label := if truthyString (Field.displayName field)
                 then default EmptyString (Field.displayName field)
                 else Field.name field;
        current := value
      |}
  end.

End Renderer.

(* ===================================================================== *)
(** ** Field configuration engine: save-time default fill *)
(* ===================================================================== *)

Module Config.

(** The [attributes] and [validations] objects of the form data: finite
    maps from property names to values. A property that was assigned
    [undefined] is present with the value [JUndefined]. *)
Abbreviation JsObject := (gmap string JsValue).

(** [o.key]: an absent property reads as [undefined]. *)
Definition getProp (o : JsObject) (key : string) : JsValue :=
  default JUndefined (o !! key).

(** [o.key = v] *)
Definition setProp (key : string) (v : JsValue) (o : JsObject) : JsObject :=
  <[key := v]> o.

(** The three shapes of the assignments of [onSubmit]:
    [o.k = o.k || d], [o.k = o.k !== undefined ? o.k : d], and
    [o.k = o.k || e] where [e] reads other properties of [o]. *)
Inductive Assignment : Type :=
| OrDefault (key : string) (d : JsValue)
| UnlessDefined (key : string) (d : JsValue)
| OrComputed (key : string) (e : JsObject -> JsValue).

Declare Scope fill_scope.
Delimit Scope fill_scope with fill.
Notation "k '||=' d" := (OrDefault k d) (at level 70) : fill_scope.
Notation "k '?:=' d" := (UnlessDefined k d) (at level 70) : fill_scope.

Definition target (s : Assignment) : string :=
  match s with
  | OrDefault k _ => k
  | UnlessDefined k _ => k
  | OrComputed k _ => k
  end.

(** The right-hand side of an assignment, evaluated on [o]. *)
Definition rhs (s : Assignment) (o : JsObject) : JsValue :=
  match s with
  | OrDefault k d => Js.or (getProp o k) d
  | UnlessDefined k d => if Js.isDefined (getProp o k) then getProp o k else d
  | OrComputed k e => Js.or (getProp o k) (e o)
  end.

Definition exec (s : Assignment) (o : JsObject) : JsObject :=
  setProp (target s) (rhs s o) o.

(** A block of assignments, executed in order. *)
Definition run (block : list Assignment) (o : JsObject) : JsObject :=
  fold_left (fun acc s => exec s acc) block o.

(** Number and string literals. *)
Definition num (z : Z) : JsValue := JNum (JsNum.ofZ z).
Coercion JStr : string >-> JsValue.
Coercion JBool : bool >-> JsValue.

(** The object literal assigned to [tooltipOptions]. *)
Definition tooltipOptionsOf (attributes : JsObject) : JsValue :=
  JObj [ ("position", Js.or (getProp attributes "tooltipPosition") "top");
         ("event", Js.or (getProp attributes "tooltipEvent") "hover") ].

Local Open Scope fill_scope.

(** The assignments to [fieldData.attributes] of each case of the switch. *)
Definition attributeDefaults (type : FieldTypeEnum) : list Assignment :=
  match type with
  | TEXT =>
      [ "placeholder" ||= "Enter text...";
        "keyfilter" ||= EmptyString;
        "helpText" ||= EmptyString;
        "floatLabel" ?:= true;
        "disabled" ||= false;
        "icon" ||= EmptyString;
        "tooltip" ||= EmptyString;
        "tooltipPosition" ||= "top";
        "tooltipEvent" ||= "hover";
        "autoClear" ||= false;
        "variant" ||= "outlined";
        OrComputed "tooltipOptions" tooltipOptionsOf ]
  | INPUT_MASK =>
      [ "placeholder" ||= "Enter text...";
        "mask" ||= "999-999-9999";
        "slotChar" ||= "_";
        "helpText" ||= EmptyString;
        "floatLabel" ?:= true;
        "disabled" ||= false;
        "icon" ||= EmptyString;
        "autoClear" ||= false;
        "variant" ||= "outlined";
        "invalid" ||= false ]
  | RICH_TEXT_BLOCKS | RICH_TEXT_MARKDOWN =>
      [ "rows" ||= num 10;
        "cols" ||= num 80;
        "autoResize" ?:= true;
        "placeholder" ||= "Enter rich text..." ]
  | NUMBER =>
      [ "placeholder" ||= "Enter number...";
        "helpText" ||= EmptyString;
        "mode" ||= "decimal";
        "locale" ||= "en-US";
        "suffix" ||= EmptyString;
        "prefix" ||= EmptyString;
        "showButtons" ||= false;
        "currency" ||= "USD";
        "step" ||= num 1;
        "min" ||= JUndefined;
        "max" ||= JUndefined;
        "minFractionDigits" ||= num 0;
        "maxFractionDigits" ||= num 2;
        "incrementButtonIcon" ||= "plus";
        "decrementButtonIcon" ||= "minus";
        "decrementButtonClassName" ||= EmptyString;
        "incrementButtonClassName" ||= EmptyString;
        "buttonLayout" ||= "stacked";
        "autoClear" ||= false;
        "icon" ||= EmptyString;
        "floatLabel" ?:= true;
        "variant" ||= "outlined";
        "invalid" ||= false;
        "disabled" ||= false;
        "useGrouping" ?:= true ]
  | DATE =>
      [ "dateFormat" ||= "mm/dd/yy";
        "locale" ||= "en-US";
        "showIcon" ?:= true;
        "minDate" ||= EmptyString;
        "maxDate" ||= EmptyString;
        "readOnlyInput" ||= false;
        "selectionMode" ||= "single";
        "hideOnRangeSelection" ||= false;
        "showButtonBar" ?:= true;
        "view" ||= "month";
        "numberOfMonths" ||= num 1;
        "showTime" ||= false;
        "hourFormat" ||= "24";
        "timeOnly" ||= false;
        "variant" ||= "outlined";
        "icon" ||= EmptyString;
        "floatLabel" ?:= true;
        "invalid" ||= false;
        "disabled" ||= false;
        "inline" ||= false;
        "showWeek" ||= false ]
  | BOOLEAN => []
  | JSON =>
      [ "rows" ||= num 10;
        "autoResize" ?:= true ]
  | EMAIL =>
      [ "placeholder" ||= "Enter email...";
        "keyfilter" ||= "email" ]
  | PASSWORD =>
      [ "promptLabel" ||= "Enter a password";
        "icon" ||= EmptyString;
        "variant" ||= "outlined";
        "weakLabel" ||= "Weak";
        "mediumLabel" ||= "Medium";
        "strongLabel" ||= "Strong";
        "feedback" ?:= true;
        "toggleMask" ?:= true;
        "floatLabel" ?:= true;
        "invalid" ||= false;
        "disabled" ||= false ]
  | ENUMERATION =>
      [ "dropdown" ?:= true;
        "multiple" ||= false;
        "filter" ?:= true;
        "showClear" ?:= true ]
  | MEDIA =>
      [ "mode" ||= "basic";
        "accept" ||= "image/*";
        "maxFileSize" ||= num 10000000;
        "auto" ?:= true;
        "chooseLabel" ||= "Choose" ]
  | RELATION =>
      [ "dropdown" ?:= true;
        "filter" ?:= true ]
  | AUTOCOMPLETE =>
      [ "placeholder" ||= "Start typing...";
        "icon" ||= EmptyString;
        "variant" ||= "outlined";
        "dropdown" ?:= true;
        "object" ||= false;
        "group" ||= false;
        "forceSelection" ||= false;
        "multiple" ||= false;
        "floatLabel" ?:= true;
        "invalid" ||= false;
        "disabled" ||= false ]
  | CASCADE_SELECT =>
      [ "placeholder" ||= "Select a value...";
        "variant" ||= "outlined";
        "optionLabel" ||= "label";
        "optionValue" ||= "value";
        "optionGroupLabel" ||= "label";
        "optionGroupChildren" ||= "items";
        "options" ||= JArr [];
        "floatLabel" ?:= true;
        "invalid" ||= false;
        "disabled" ||= false ]
  | DROPDOWN =>
      [ "placeholder" ||= "Select an option...";
        "variant" ||= "outlined";
        "options" ||= JArr [];
        "optionLabel" ||= "text";
        "optionValue" ||= "value";
        "optionGroupLabel" ||= "label";
        "optionGroupChildren" ||= "items";
        "checkmark" ?:= true;
        "highlightOnSelect" ?:= true;
        "editable" ||= false;
        "filter" ?:= true;
        "showClear" ||= false;
        "loading" ||= false;
        "floatLabel" ?:= true;
        "invalid" ||= false;
        "disabled" ||= false;
        "optionGroupTemplate" ||= EmptyString;
        "valueTemplate" ||= EmptyString;
        "itemTemplate" ||= EmptyString;
        "panelFooterTemplate" ||= EmptyString ]
  | INPUT_TEXTAREA =>
      [ "placeholder" ||= "Enter text...";
        "rows" ||= num 5;
        "cols" ||= JUndefined;
        "autoResize" ?:= true;
        "keyfilter" ||= EmptyString;
        "floatLabel" ?:= true;
        "variant" ||= "outlined";
        "disabled" ||= false;
        "invalid" ||= false;
        "helpText" ||= EmptyString ]
  | UID =>
      [ "placeholder" ||= "Auto-generated UID";
        "disabled" ?:= true ]
  | COMPONENT => []
  | DYNAMIC_ZONE => []
  | _ => []
  end.

(** The assignments to [fieldData.validations] of each case; [attributes]
    is [fieldData.attributes] as the case has already filled it. *)
Definition validationDefaults (type : FieldTypeEnum) (attributes : JsObject)
    : list Assignment :=
  match type with
  | TEXT =>
      [ "minLength" ||= JUndefined;
        "maxLength" ||= JUndefined;
        "regex" ||= EmptyString;
        "apiUrl" ||= EmptyString ]
  | INPUT_MASK =>
      [ "required" ||= false;
        "mask" ||= getProp attributes "mask";
        "regex" ||= EmptyString;
        "unmask" ?:= false ]
  | NUMBER =>
      [ "required" ||= false;
        "minValue" ||= JUndefined;
        "maxValue" ||= JUndefined;
        "minFractionDigits" ||= JUndefined;
        "maxFractionDigits" ||= JUndefined ]
  | PASSWORD =>
      [ "required" ||= false;
        "minLength" ||= JUndefined;
        "maxLength" ||= JUndefined;
        "regex" ||= EmptyString ]
  | INPUT_TEXTAREA =>
      [ "required" ||= false;
        "minLength" ||= JUndefined;
        "maxLength" ||= JUndefined ]
  | _ => []
  end.

Local Close Scope fill_scope.

(** [if (!fieldData.attributes) fieldData.attributes = {}], and the same
    for validations: an absent object becomes the empty object. *)
Definition orEmpty (o : option JsObject) : JsObject := default ∅ o.

(** The default-fill step of [onSubmit] on the attributes and validations
    of the form data. (The switch also fills [dependOn], [uniqueId],
    [displayName], [isVisible] and [getApiUrl] of the field itself for some
    kinds; those are not part of the two objects.) *)
Definition defaultFill (type : FieldTypeEnum)
    (attributes validations : option JsObject) : JsObject * JsObject :=
  let attributes' := run (attributeDefaults type) (orEmpty attributes) in
  let validations' := run (validationDefaults type attributes') (orEmpty validations) in
  (attributes', validations').

(** *** Predicates on assignment blocks *)

(** An assignment whose computed default can never be falsy. *)
Definition stable (s : Assignment) : Prop :=
  match s with
  | OrComputed _ e => forall o, Js.truthy (e o) = true
  | _ => True
  end.

(** The value at the target of [s] is one that [s] leaves alone. *)
Definition restingValue (s : Assignment) (v : JsValue) : Prop :=
  match s with
  | OrDefault _ d => Js.or v d = v
  | UnlessDefined _ d => (if Js.isDefined v then v else d) = v
  | OrComputed _ _ => Js.truthy v = true
  end.

(** [s] has nothing left to do on [o]. *)
Definition settled (s : Assignment) (o : JsObject) : Prop :=
  is_Some (o !! target s) /\ restingValue s (getProp o (target s)).

(** *** What a block leaves unchanged *)

(** The assignment [s] gives back the value [v] it finds at its key:
    [v || d] is [v] when [v] is truthy or is [d] itself;
    [v !== undefined ? v : d] is [v] when [v] is defined or is [d] itself;
    [v || e] with a computed object [e] is [v] when [v] is truthy. *)
Definition keptBy (s : Assignment) (v : JsValue) : Prop :=
  match s with
  | OrDefault _ d => Js.truthy v = true \/ d = v
  | UnlessDefined _ d => Js.isDefined v = true \/ d = v
  | OrComputed _ _ => Js.truthy v = true
  end.

(** A user value the block keeps at [key]: every assignment of the block
    to [key] gives it back. A key the block does not assign keeps every
    value. *)
Definition kept (block : list Assignment) (key : string) (v : JsValue) : Prop :=
  forall s, In s block -> target s = key -> keptBy s v.

End Config.

(* ===================================================================== *)
(** ** Field configuration engine: [apiId] derivation *)
(* ===================================================================== *)

Module Dialog.
Import JsString.

(** [.replace(/\s+/g, '_')]: every maximal run of whitespace becomes one
    underscore. [inRun] tells that the previous character was whitespace. *)
Fixpoint replaceSpaceRuns (inRun : bool) (s : string) : string :=
  match s with
  | EmptyString => EmptyString
  | String c rest =>
      if isSpace c then
        if inRun then replaceSpaceRuns true rest
        else String "_" (replaceSpaceRuns true rest)
      else String c (replaceSpaceRuns false rest)
  end.

(** [[a-z0-9_]] *)
Definition isIdChar (c : ascii) : bool :=
  isLower c || isDigit c || Ascii.eqb c "_".

(** [.replace(/[^a-z0-9_]/g, '')] *)
Fixpoint stripNonIdChars (s : string) : string :=
  match s with
  | EmptyString => EmptyString
  | String c rest =>
      if isIdChar c then String c (stripNonIdChars rest) else stripNonIdChars rest
  end.

(** The identifier derived from a name. *)
Definition deriveApiId (name : string) : string :=
  stripNonIdChars (replaceSpaceRuns false (toLowerCase name)).

(** The two form values the name input touches. *)
Record FormValues : Type := mkForm { name : string; apiId : string }.

(** [form.setValue] *)
Definition setName (v : string) (form : FormValues) : FormValues :=
  mkForm v (apiId form).
Definition setApiId (v : string) (form : FormValues) : FormValues :=
  mkForm (name form) v.

(** [defaultValues] of the form for the dialog's [field] property. *)
Definition initialValues (field : option Field.t) : FormValues :=
  match field with
  | Some f => mkForm (Field.name f) (Field.apiId f)
  | None => mkForm EmptyString EmptyString
  end.

(** The user types into the API ID input, which is registered with the form
    ([form.register('apiId')]): the form value follows the input. *)
Definition editApiId (typed : string) (form : FormValues) : FormValues :=
  setApiId typed form.

(** [handleNameChange]; [field] is the dialog's property (the field under
    edit, absent for a new field) and [typed] is [e.target.value]. *)
Definition handleNameChange (field : option Field.t) (typed : string)
    (form : FormValues) : FormValues :=
  let form := setName typed form in
  if negb (truthyString (option_map Field.apiId field))
  then setApiId (deriveApiId typed) form
  else form.

End Dialog.

(* ===================================================================== *)
(** ** The renderer: blur-time validation of text inputs *)
(* ===================================================================== *)

Module Blur.
Import JsString.

(** What a blur handler computes: the validity it finds and what it writes
    to the console. (The handlers build [newAttributes] with the invalid
    flag and drop it.) *)
Record Outcome : Type := mkOutcome { isValid : bool; console : list ConsoleEntry }.

Definition validityWord (valid : bool) : string :=
  if valid then "valid" else "invalid".

(** [value.length < bound] and [value.length > bound]. *)
Definition shorterThan (value : string) (bound : JsNumber) : bool :=
  JsNum.lt (JsNum.ofNat (String.length value)) bound.
Definition longerThan (value : string) (bound : JsNumber) : bool :=
  JsNum.gt (JsNum.ofNat (String.length value)) bound.

(** [attributes.invalid !== !isValid] *)
Definition invalidDiffers (invalid : option bool) (valid : bool) : bool :=
  match invalid with
  | Some b => negb (Bool.eqb b (negb valid))
  | None => true
  end.

Section Handlers.

(** [new RegExp(pattern).test(subject)] of the host; [None] when the
    constructor throws on the pattern. *)
Variable regExpTest : string -> string -> option bool.

(** The [onBlur] handler of the TEXT input; [value] is [e.target.value]. *)
Definition textOnBlur (field : Field.t) (value : string) : Outcome :=
  let attributes := default FieldAttributes.empty (Field.attributes field) in
  let validations := default FieldValidations.empty (Field.validations field) in
  let isValid := true in
  (* Check min length *)
  let isValid :=
    match FieldValidations.minLength validations with
    | Some n => if JsNum.truthy n && shorterThan value n then false else isValid
    | None => isValid
    end in
  (* Check max length *)
  let isValid :=
    match FieldValidations.maxLength validations with
    | Some n => if JsNum.truthy n && longerThan value n then false else isValid
    | None => isValid
    end in
  (* Check regex pattern *)
  let '(isValid, log) :=
    match FieldValidations.regex validations with
    | Some pattern =>
        if nonEmpty pattern && nonEmpty value then
          match regExpTest pattern value with
          | Some matched => (if negb matched then false else isValid, [])
          | None => (isValid, [ConsoleError ("Invalid regex pattern: " ++ pattern)])
          end
        else (isValid, [])
    | None => (isValid, [])
    end in
  (* Update invalid state *)
  let log :=
    if invalidDiffers (FieldAttributes.invalid attributes) isValid
    then List.app log [ConsoleLog ("Field validation: " ++ Field.name field ++ " "
                                   ++ validityWord isValid)]
    else log in
  (* API validation *)
  let log :=
    match FieldValidations.apiUrl validations with
    | Some url =>
        if nonEmpty url && nonEmpty value
        then List.app log [ConsoleLog ("API validation would call: " ++ url)]
        else log
    | None => log
    end in
  mkOutcome isValid log.

(** The [onBlur] handler of the INPUT_TEXTAREA input. *)
Definition textareaOnBlur (field : Field.t) (value : string) : Outcome :=
  let attributes := default FieldAttributes.empty (Field.attributes field) in
  let validations := default FieldValidations.empty (Field.validations field) in
  let isValid := true in
  (* Check required *)
  let isValid :=
    if truthyBool (FieldValidations.required validations) && negb (nonEmpty value)
    then false else isValid in
  (* Check min length *)
  let isValid :=
    match FieldValidations.minLength validations with
    | Some n => if JsNum.truthy n && shorterThan value n then false else isValid
    | None => isValid
    end in
  (* Check max length *)
  let isValid :=
    match FieldValidations.maxLength validations with
    | Some n => if JsNum.truthy n && longerThan value n then false else isValid
    | None => isValid
    end in
  (* Update invalid state *)
  let log :=
    if invalidDiffers (FieldAttributes.invalid attributes) isValid
    then [ConsoleLog ("Field validation: " ++ Field.name field ++ " "
                      ++ validityWord isValid)]
    else [] in
  mkOutcome isValid log.

End Handlers.

(** A text field with the given validations and no attributes. *)
Definition textField (validations : FieldValidations.t) : Field.t :=
  Field.mk "Title" "title" TEXT false None None None None (Some validations).

(** [validations = { required: true }] *)
Definition requiredOnly : FieldValidations.t :=
  FieldValidations.mk (Some true) None None None None None None None None None None.

(** [validations = { required: true, minLength: 3 }] *)
Definition requiredMin3 : FieldValidations.t :=
  FieldValidations.mk (Some true) (Some (JsNum.ofZ 3)) None None None None None
                      None None None None.

(** The validations [v] with [required] replaced by [r]. *)
Definition withRequired (r : option bool) (v : FieldValidations.t) : FieldValidations.t :=
  FieldValidations.mk r (FieldValidations.minLength v) (FieldValidations.maxLength v)
    (FieldValidations.regex v) (FieldValidations.minValue v) (FieldValidations.maxValue v)
    (FieldValidations.minFractionDigits v) (FieldValidations.maxFractionDigits v)
    (FieldValidations.apiUrl v) (FieldValidations.mask v) (FieldValidations.unmask v).

(** The field [f] with its validations replaced. *)
Definition withValidations (v : FieldValidations.t) (f : Field.t) : Field.t :=
  Field.mk (Field.name f) (Field.apiId f) (Field.type f) (Field.required f)
    (Field.displayName f) (Field.description f) (Field.isVisible f)
    (Field.attributes f) (Some v).

(** The three rules the TEXT blur handler evaluates, each telling whether
    it fails on [value]. A rule that is unset, a zero bound, a pattern tried
    on the empty value and a pattern the host cannot compile do not fail. *)
Definition minLengthFails (v : FieldValidations.t) (value : string) : bool :=
  match FieldValidations.minLength v with
  | Some n => JsNum.truthy n && shorterThan value n
  | None => false
  end.

Definition maxLengthFails (v : FieldValidations.t) (value : string) : bool :=
  match FieldValidations.maxLength v with
  | Some n => JsNum.truthy n && longerThan value n
  | None => false
  end.

Definition regexFails (regExpTest : string -> string -> option bool)
    (v : FieldValidations.t) (value : string) : bool :=
  match FieldValidations.regex v with
  | Some pattern =>
      nonEmpty pattern && nonEmpty value
      && match regExpTest pattern value with
         | Some matched => negb matched
         | None => false
         end
  | None => false
  end.

End Blur.

(* ===================================================================== *)
(** ** The renderer: typed input of the number widget *)
(* ===================================================================== *)

Module NumberInput.
Import JsString.

Section Handler.

(** [parseFloat] of the host. *)
Variable parseFloat : string -> JsNumber.

(** The [onChange] handler of the NUMBER input; [val] is [e.target.value]
    and [None] is the [null] passed for an empty input. *)
Definition numberOnChange (attributes : FieldAttributes.t) (val : string)
    : Callback (option JsNumber) :=
  let parsedValue := if nonEmpty val then Some (parseFloat val) else None in
  let parsedValue :=
    match parsedValue with
    | Some parsed =>
        let parsed :=
          match FieldAttributes.min attributes with
          | Some lo => if JsNum.lt parsed lo then lo else parsed
          | None => parsed
          end in
        let parsed :=
          match FieldAttributes.max attributes with
          | Some hi => if JsNum.gt parsed hi then hi else parsed
          | None => parsed
          end in
        Some parsed
    | None => None
    end in
  Invoked parsedValue.

End Handler.

(** [parseFloat] on the strings made of decimal digits only: the double
    nearest to the integer they denote. Other strings are outside this
    fragment and read as [NaN] here. *)
Fixpoint digitsValue (acc : Z) (s : string) : Z :=
  match s with
  | EmptyString => acc
  | String c rest => digitsValue (10 * acc + Z.of_nat (code c - code "0")) rest
  end.

Definition parseDigits (s : string) : JsNumber :=
  if nonEmpty s && allChars isDigit s then JsNum.ofZ (digitsValue 0 s) else S754_nan.

(** The configured bounds are not crossed: [min > max] does not hold, or
    one of the two is unset. *)
Definition boundsOrdered (attributes : FieldAttributes.t) : Prop :=
  match FieldAttributes.min attributes, FieldAttributes.max attributes with
  | Some lo, Some hi => JsNum.gt lo hi = false
  | _, _ => True
  end.

(** [attributes = { min: lo, max: hi }] *)
Definition bounds (lo hi : Z) : FieldAttributes.t :=
  FieldAttributes.mk None None None None (Some (JsNum.ofZ lo)) (Some (JsNum.ofZ hi)).

End NumberInput.

(* ===================================================================== *)
(** ** Sample schema objects *)
(* ===================================================================== *)

Module Sample.

(** [attributes = { keyfilter: 'int' }] *)
Definition intFilter : FieldAttributes.t :=
  FieldAttributes.mk (Some "int") None None None None None.

(** A hidden text field: [isVisible: false]. *)
Definition hiddenTitle : Field.t :=
  Field.mk "Title" "title" TEXT true None None (Some false) None None.

(** [attributes = { placeholder: '' }] *)
Definition emptyPlaceholder : gmap string JsValue :=
  {[ "placeholder" := JStr EmptyString ]}.

(** [validations = { regex: '^[A-Z]' }] *)
Definition capitalised : gmap string JsValue := {[ "regex" := JStr "^[A-Z]" ]}.

(** [attributes = { min: 0, maxFractionDigits: 0 }] *)
Definition zeroBounds : gmap string JsValue :=
  {[ "min" := Config.num 0; "maxFractionDigits" := Config.num 0 ]}.

(** The form of a dialog for a new field after the user typed an API ID. *)
Definition editedNewField : Dialog.FormValues :=
  Dialog.editApiId "custom_id" (Dialog.initialValues None).

End Sample.

(* ===================================================================== *)
(** ** String methods used by the dialog and the upload area *)
(* ===================================================================== *)

Module JsText.
Import JsString.

(** [s.split(sep)] for a one-character separator: the pieces between the
    separators, at least one piece. *)
Fixpoint split (sep : ascii) (s : string) : list string :=
  match s with
  | EmptyString => [EmptyString]
  | String c rest =>
      if Ascii.eqb c sep then EmptyString :: split sep rest
      else match split sep rest with
           | piece :: pieces => String c piece :: pieces
           | [] => [String c EmptyString]
           end
  end.

(** [pieces.join(sep)] *)
Fixpoint join (sep : ascii) (pieces : list string) : string :=
  match pieces with
  | [] => EmptyString
  | [piece] => piece
  | piece :: others => piece ++ String sep (join sep others)
  end.

(** [s.trimStart()], [s.trimEnd()] and [s.trim()]. *)
Fixpoint trimStart (s : string) : string :=
  match s with
  | EmptyString => EmptyString
  | String c rest => if isSpace c then trimStart rest else s
  end.

Fixpoint trimEnd (s : string) : string :=
  match s with
  | EmptyString => EmptyString
  | String c rest =>
      match trimEnd rest with
      | EmptyString => if isSpace c then EmptyString else String c EmptyString
      | kept => String c kept
      end
  end.

Definition trim (s : string) : string := trimEnd (trimStart s).

(** [s.startsWith(p)] *)
Fixpoint startsWith (p s : string) : bool :=
  match p, s with
  | EmptyString, _ => true
  | String a p', String b s' => Ascii.eqb a b && startsWith p' s'
  | String _ _, EmptyString => false
  end.

(** [s.endsWith(p)] *)
Definition endsWith (p s : string) : bool :=
  (String.length p <=? String.length s)%nat
  && String.eqb (String.substring (String.length s - String.length p) (String.length p) s) p.

(** [s.includes(c)] for a one-character needle. *)
Definition includesChar (c : ascii) (s : string) : bool := anyChar (Ascii.eqb c) s.

(** The line feed. *)
Definition newline : ascii := "010".

End JsText.

(* ===================================================================== *)
(** ** The field schema of the dialog: name and API ID *)
(* ===================================================================== *)

Module FieldSchema.
Import JsString Regex.

(** [[a-zA-Z0-9_]] *)
Definition isWordChar (c : ascii) : bool := isAlnum c || Ascii.eqb c "_".

(** [/^[a-zA-Z0-9_]+$/] *)
Definition reApiId : Regex := Seq (Class isWordChar) (Star (Class isWordChar)).

(** [z.string().min(2, ...)] on [name]. *)
Definition nameAccepted (name : string) : bool := (2 <=? String.length name)%nat.

(** [z.string().min(2, ...).regex(/^[a-zA-Z0-9_]+$/, ...)] on [apiId]. *)
Definition apiIdAccepted (apiId : string) : bool :=
  (2 <=? String.length apiId)%nat && test reApiId apiId.

End FieldSchema.

(* ===================================================================== *)
(** ** The dialog: enumeration values, labels, dropdown options *)
(* ===================================================================== *)

Module EnumValues.
Import JsString JsText.

(** [v.trim() !== ''] *)
Definition notBlank (v : string) : bool := nonEmpty (trim v).

(** The [onChange] handler of the values text area: the lines of the text
    that are not blank become [enumValues]. *)
Definition parseValues (text : string) : list string :=
  List.filter notBlank (split newline text).

(** [defaultValue] of the text area: [field?.enumValues?.join('\n') || '']. *)
Definition defaultText (enumValues : option (list string)) : string :=
  match enumValues with
  | Some values => join newline values
  | None => EmptyString
  end.

(** A string without line feed. *)
Definition singleLine (v : string) : bool := negb (includesChar newline v).

End EnumValues.

Module Labels.

(** [getFieldTypeLabel] on the dialog's [fieldType]. The [default] branch
    of the switch ('Field') is taken by no member of the enum. *)
Definition getFieldTypeLabel (fieldType : FieldTypeEnum) : string :=
  match fieldType with
  | TEXT => "Text"
  | NUMBER => "Number"
  | DATE => "Date"
  | IMAGE => "Image"
  | RICH_TEXT => "Rich Text"
  | MASK => "Masked Input"
  | CALENDAR => "Calendar"
  | EDITOR => "Editor"
  | PASSWORD => "Password"
  | AUTOCOMPLETE => "Autocomplete"
  | CASCADE_SELECT => "Cascade Select"
  | DROPDOWN => "Dropdown"
  | FILE => "File"
  | MULTI_STATE_CHECKBOX => "Multi-State Checkbox"
  | MULTI_SELECT => "Multi-Select"
  | MENTION => "Mention"
  | TEXTAREA => "Textarea"
  | OTP => "OTP"
  | RICH_TEXT_BLOCKS => "Rich Text (Blocks)"
  | RICH_TEXT_MARKDOWN => "Rich Text (Markdown)"
  | BOOLEAN => "Boolean"
  | EMAIL => "Email"
  | MEDIA => "Media"
  | ENUMERATION => "Enumeration"
  | RELATION => "Relation"
  | UID => "UID"
  | JSON => "JSON"
  | COMPONENT => "Component"
  | DYNAMIC_ZONE => "Dynamic Zone"
  | INPUT_MASK => "Input Mask"
  | INPUT_TEXTAREA => "Input Textarea"
  end.

End Labels.

Module Options.

(** [DropdownOption]; the editor creates options with all four properties. *)
Record DropdownOption : Type := mkOption {
  text : string;
  value : string;
  icon : string;
  color : string
}.

(** The option the Add Option button appends. *)
Definition blank : DropdownOption :=
  mkOption EmptyString EmptyString EmptyString EmptyString.

(** Add Option: [[...options, { text: '', value: '', icon: '', color: '' }]];
    [None] is an [attributes.options] that is not set. *)
Definition addOption (options : option (list DropdownOption)) : list DropdownOption :=
  List.app (default [] options) [blank].

(** [l.filter((_, i) => p(i))], the index counted from [i]. *)
Fixpoint filterIndex {A : Type} (p : nat -> bool) (i : nat) (l : list A) : list A :=
  match l with
  | [] => []
  | x :: rest =>
      if p i then x :: filterIndex p (S i) rest else filterIndex p (S i) rest
  end.

(** The remove button of option [index]:
    [options.filter((_, i) => i !== index)]. *)
Definition removeOption (index : nat) (options : option (list DropdownOption))
    : list DropdownOption :=
  filterIndex (fun i => negb (i =? index)%nat) 0 (default [] options).

End Options.

(* ===================================================================== *)
(** ** Key filters of the text area *)
(* ===================================================================== *)

Module TextArea.
Import JsString Regex KeyFilter.

(** The [onChange] handler of the INPUT_TEXTAREA input: the switch has the
    cases int, pint, num, pnum, alpha and alphanum only. *)
Definition textareaOnChange (attributes : FieldAttributes.t) (inputValue : string)
    : Callback string :=
  let reject (re : Regex) : Callback string :=
    if negb (test re inputValue) then NotInvoked else Invoked inputValue in
  if truthyString (FieldAttributes.keyfilter attributes) then
    match FieldAttributes.keyfilter attributes with
    | Some "int" => reject reInt
    | Some "pint" => reject rePint
    | Some "num" => reject reNum
    | Some "pnum" => reject rePnum
    | Some "alpha" => reject reAlpha
    | Some "alphanum" => reject reAlphanum
    | _ => Invoked inputValue
    end
  else Invoked inputValue.

(** The classes the text area filters. *)
Definition filtered (k : KeyClass) : bool :=
  match k with
  | KMoney | KHex => false
  | _ => true
  end.

End TextArea.

(* ===================================================================== *)
(** ** The masked input: blur-time validation *)
(* ===================================================================== *)

Module MaskBlur.
Import JsString Mask.

(** [i < value.length && value[i] !== attributes.slotChar]: position [i] of
    the value exists and does not hold the configured slot character (an
    unset slot character differs from every character). *)
Definition isFilled (slotChar : option string) (value : string) (i : nat) : bool :=
  match charAt value i with
  | Some c =>
      match slotChar with
      | Some s => negb (String.eqb (single c) s)
      | None => true
      end
  | None => false
  end.

(** State of the counting loop: the index and the two counters. *)
Record Count : Type := mkCount { index : nat; requiredChars : nat; filledChars : nat }.

(** One iteration of the loop over [validations.mask]. *)
Definition countStep (slotChar : option string) (value : string) (st : Count)
    (maskChar : ascii) : Count :=
  if isSlot maskChar then
    mkCount (S (index st)) (S (requiredChars st))
            (if isFilled slotChar value (index st)
             then S (filledChars st) else filledChars st)
  else mkCount (S (index st)) (requiredChars st) (filledChars st).

(** The mask-completeness check: [filledChars < requiredChars] fails it. *)
Definition maskComplete (mask : string) (slotChar : option string) (value : string)
    : bool :=
  let st := fold_left (countStep slotChar value) (list_ascii_of_string mask)
                      (mkCount 0 0 0) in
  negb (filledChars st <? requiredChars st)%nat.

Section Handler.

(** [new RegExp(pattern).test(subject)] of the host; [None] when the
    constructor throws on the pattern. *)
Variable regExpTest : string -> string -> option bool.

(** The [onBlur] handler of the INPUT_MASK input; [value] is
    [e.target.value]. *)
Definition maskOnBlur (field : Field.t) (value : string) : Blur.Outcome :=
  let attributes := default FieldAttributes.empty (Field.attributes field) in
  let validations := default FieldValidations.empty (Field.validations field) in
  let isValid := true in
  (* Get the value to validate (masked or unmasked) *)
  let valueToValidate :=
    if truthyBool (FieldValidations.unmask validations)
    then unmaskValue value
           (if truthyString (FieldAttributes.mask attributes)
            then default EmptyString (FieldAttributes.mask attributes)
            else EmptyString)
    else value in
  (* Check required *)
  let isValid :=
    if truthyBool (FieldValidations.required validations)
       && negb (nonEmpty valueToValidate)
    then false else isValid in
  (* Check mask completeness *)
  let isValid :=
    match FieldValidations.mask validations with
    | Some mask =>
        if nonEmpty mask && nonEmpty value then
          if maskComplete mask (FieldAttributes.slotChar attributes) value
          then isValid else false
        else isValid
    | None => isValid
    end in
  (* Check regex pattern *)
  let '(isValid, log) :=
    match FieldValidations.regex validations with
    | Some pattern =>
        if nonEmpty pattern && nonEmpty valueToValidate then
          match regExpTest pattern valueToValidate with
          | Some matched => (if negb matched then false else isValid, [])
          | None => (isValid, [ConsoleError ("Invalid regex pattern: " ++ pattern)])
          end
        else (isValid, [])
    | None => (isValid, [])
    end in
  (* Update invalid state *)
  let log :=
    if Blur.invalidDiffers (FieldAttributes.invalid attributes) isValid
    then List.app log [ConsoleLog ("Field validation: " ++ Field.name field ++ " "
                                   ++ Blur.validityWord isValid)]
    else log in
  Blur.mkOutcome isValid log.

End Handler.

End MaskBlur.

(* ===================================================================== *)
(** ** The masked input: reading the loops by suffixes *)
(* ===================================================================== *)

(** The helpers of this module restate the index-driven loops of [applyMask],
    [unmaskValue] and the completeness check as recursions on what is left
    of the mask and of the value; they serve the proofs only. *)
Module MaskSpec.
Import JsString Mask.

(** [s.slice(n)] *)
Fixpoint dropStr (n : nat) (s : string) : string :=
  match n, s with
  | O, _ => s
  | S k, String _ rest => dropStr k rest
  | S _, EmptyString => EmptyString
  end.

(** [s.slice(0, n)] *)
Fixpoint takeStr (n : nat) (s : string) : string :=
  match n, s with
  | O, _ => EmptyString
  | S k, String c rest => String c (takeStr k rest)
  | S _, EmptyString => EmptyString
  end.

(** The output of the loop of [applyMask] for the rest of the mask and the
    unconsumed rest of the value. *)
Fixpoint applyFrom (mask : list ascii) (slotChar : string) (rest : string) : string :=
  match mask with
  | [] => EmptyString
  | maskChar :: mask' =>
      match rest with
      | EmptyString =>
          (if isSlot maskChar then slotChar else single maskChar)
          ++ applyFrom mask' slotChar rest
      | String valueChar rest' =>
          if Ascii.eqb maskChar "9" then
            if isDigit valueChar
            then String valueChar (applyFrom mask' slotChar rest')
            else slotChar ++ applyFrom mask' slotChar rest
          else if Ascii.eqb maskChar "a" then
            if isLetter valueChar
            then String valueChar (applyFrom mask' slotChar rest')
            else slotChar ++ applyFrom mask' slotChar rest
          else if Ascii.eqb maskChar "*" then
            String valueChar (applyFrom mask' slotChar rest')
          else
            String maskChar
              (applyFrom mask' slotChar
                 (if Ascii.eqb valueChar maskChar then rest' else rest))
      end
  end.

(** The test of [unmaskValue] on one mask character. *)
Definition keeps (maskChar valueChar : ascii) : bool :=
  (Ascii.eqb maskChar "9" && isDigit valueChar)
  || (Ascii.eqb maskChar "a" && isLetter valueChar)
  || Ascii.eqb maskChar "*".

(** The output of the loop of [unmaskValue] for the rest of the mask. *)
Fixpoint unmaskRest (mask value : string) : string :=
  match value with
  | EmptyString => EmptyString
  | String valueChar value' =>
      match mask with
      | EmptyString => unmaskRest EmptyString value'
      | String maskChar mask' =>
          if keeps maskChar valueChar
          then String valueChar (unmaskRest mask' value')
          else unmaskRest mask' value'
      end
  end.

(** A value that satisfies the mask position by position: a digit under
    [9], a letter under [a], anything under [*], the literal itself
    elsewhere, and the same length. *)
Definition accepts (maskChar valueChar : ascii) : bool :=
  if Ascii.eqb maskChar "9" then isDigit valueChar
  else if Ascii.eqb maskChar "a" then isLetter valueChar
  else if Ascii.eqb maskChar "*" then true
  else Ascii.eqb valueChar maskChar.

Fixpoint conforms (mask value : string) : bool :=
  match mask, value with
  | EmptyString, EmptyString => true
  | String maskChar mask', String valueChar value' =>
      accepts maskChar valueChar && conforms mask' value'
  | _, _ => false
  end.

(** A mask for digits: digit slots [9] and literals that are neither
    placeholders nor digits. *)
Definition digitMaskChar (maskChar : ascii) : bool :=
  Ascii.eqb maskChar "9" || (negb (isSlot maskChar) && negb (isDigit maskChar)).

Definition digitMask (mask : string) : bool := allChars digitMaskChar mask.

(** Number of digit slots of a mask. *)
Fixpoint digitSlots (mask : string) : nat :=
  match mask with
  | EmptyString => O
  | String maskChar mask' =>
      if Ascii.eqb maskChar "9" then S (digitSlots mask') else digitSlots mask'
  end.

End MaskSpec.

(** The counting loop of the completeness check, read by suffixes (for the
    proofs only). *)
Module MaskCountSpec.
Import JsString Mask.

(** The head of [value] exists and differs from the slot character. *)
Definition headFilled (slotChar : option string) (value : string) : bool :=
  match value with
  | String c _ =>
      match slotChar with
      | Some s => negb (String.eqb (single c) s)
      | None => true
      end
  | EmptyString => false
  end.

Definition tailStr (s : string) : string :=
  match s with
  | String _ rest => rest
  | EmptyString => EmptyString
  end.

(** Number of placeholders of the mask. *)
Fixpoint requiredOf (mask : list ascii) : nat :=
  match mask with
  | [] => O
  | m :: mask' => if isSlot m then S (requiredOf mask') else requiredOf mask'
  end.

(** Number of placeholders of the mask whose position is filled when the
    value is aligned with the mask. *)
Fixpoint filledOf (slotChar : option string) (mask : list ascii) (value : string) : nat :=
  match mask with
  | [] => O
  | m :: mask' =>
      if isSlot m && headFilled slotChar value
      then S (filledOf slotChar mask' (tailStr value))
      else filledOf slotChar mask' (tailStr value)
  end.

End MaskCountSpec.

(** Fields of the masked-input kind as the dialog saves them: the mask in
    the attributes and, mirrored, in the validations. *)
Module MaskSample.

Definition maskAttributes (mask slotChar : string) : FieldAttributes.t :=
  FieldAttributes.mk None (Some mask) (Some slotChar) None None None.

Definition maskValidations (mask : string) : FieldValidations.t :=
  FieldValidations.mk None None None None None None None None None (Some mask) None.

Definition maskField (mask slotChar : string) : Field.t :=
  Field.mk "Phone" "phone" INPUT_MASK false None None None
           (Some (maskAttributes mask slotChar)) (Some (maskValidations mask)).

End MaskSample.

(* ===================================================================== *)
(** ** Field type options: icons *)
(* ===================================================================== *)

Module Icons.

(** The icon information of a field type option. *)
Record IconInfo : Type := mkIcon {
  iconBg : string;
  iconColor : string;
  iconText : string
}.

(** [iconMap]: the kinds that have an entry. *)
Definition iconMap (type : FieldTypeEnum) : option IconInfo :=
  match type with
  | TEXT => Some (mkIcon "bg-green-100" "text-green-700" "Aa")
  | INPUT_MASK => Some (mkIcon "bg-green-100" "text-green-700" "##")
  | AUTOCOMPLETE => Some (mkIcon "bg-indigo-100" "text-indigo-700" "⌨️")
  | CASCADE_SELECT => Some (mkIcon "bg-teal-100" "text-teal-700" "📂")
  | DROPDOWN => Some (mkIcon "bg-purple-100" "text-purple-700" "▼")
  | RICH_TEXT_BLOCKS => Some (mkIcon "bg-blue-100" "text-blue-700" "∷")
  | RICH_TEXT_MARKDOWN => Some (mkIcon "bg-blue-100" "text-blue-700" "≡")
  | NUMBER => Some (mkIcon "bg-red-100" "text-red-700" "123")
  | BOOLEAN => Some (mkIcon "bg-green-100" "text-green-700" "⚪")
  | JSON => Some (mkIcon "bg-blue-100" "text-blue-700" "{}")
  | EMAIL => Some (mkIcon "bg-red-100" "text-red-700" "@")
  | PASSWORD => Some (mkIcon "bg-yellow-100" "text-yellow-700" "🔒")
  | DATE => Some (mkIcon "bg-amber-100" "text-amber-700" "📅")
  | MEDIA => Some (mkIcon "bg-purple-100" "text-purple-700" "🖼️")
  | ENUMERATION => Some (mkIcon "bg-purple-100" "text-purple-700" "≣")
  | RELATION => Some (mkIcon "bg-blue-100" "text-blue-700" "🔗")
  | UID => Some (mkIcon "bg-blue-100" "text-blue-700" "🔑")
  | COMPONENT => Some (mkIcon "bg-gray-100" "text-gray-700" "⚙️")
  | DYNAMIC_ZONE => Some (mkIcon "bg-gray-100" "text-gray-700" "∞")
  | INPUT_TEXTAREA => Some (mkIcon "bg-orange-100" "text-orange-700" "¶")
  | _ => None
  end.

(** The object after [||]. *)
Definition fallback : IconInfo := mkIcon "bg-gray-100" "text-gray-700" "?".

(** [getIconForFieldType], on the [fieldTypeName] of the backend record,
    with the console output of the mapping it calls. *)
Definition getIconForFieldType (fieldTypeName : string)
    : IconInfo * list ConsoleEntry :=
  let (type, console) := Registry.mapFieldTypeNameToEnum fieldTypeName in
  (default fallback (iconMap type), console).

End Icons.

(* ===================================================================== *)
(** ** Password strength: the order of the three results *)
(* ===================================================================== *)

Module PasswordOrder.
Import Password.

(** [weak] below [medium] below [strong]. *)
Definition rank (s : Strength) : nat :=
  match s with
  | weak => 0
  | medium => 1
  | strong => 2
  end.

(** One point of the score for a test that holds. *)
Definition count (b : bool) : nat := if b then 1 else 0.

End PasswordOrder.

(* ===================================================================== *)
(** ** The collection editor: saving and deleting a field *)
(* ===================================================================== *)

Module Collection.

(** A field of a collection: the optional [id] of the store's [Field]
    beside its other properties. *)
Record StoredField : Type := mkStored {
  id : option string;
  field : Field.t
}.

(** [a === b] on optional strings. *)
Definition sameId (a b : option string) : bool :=
  match a, b with
  | Some x, Some y => String.eqb x y
  | None, None => true
  | _, _ => false
  end.

(** [{ ...field, id: `temp-${Date.now()}` }]; [now] is the decimal text of
    [Date.now()]. *)
Definition withTempId (now : string) (f : StoredField) : StoredField :=
  mkStored (Some ("temp-" ++ now)) (field f).

(** [updatedFields] of [handleSaveField]: the list sent to the API and then
    stored. [None] when no collection is selected: the handler returns
    before doing anything. *)
Definition handleSaveField (now : string)
    (selectedCollection : option (list StoredField)) (f : StoredField)
    : option (list StoredField) :=
  match selectedCollection with
  | None => None
  | Some fields =>
      if truthyString (id f) then
        Some (List.map (fun g => if sameId (id g) (id f) then f else g) fields)
      else
        Some (List.app fields [withTempId now f])
  end.

(** [updatedFields] of [handleDeleteField]; [fieldToDelete] is the state
    set by [confirmDeleteField], [None] for [null]. *)
Definition handleDeleteField
    (selectedCollection : option (list StoredField)) (fieldToDelete : option string)
    : option (list StoredField) :=
  match selectedCollection with
  | None => None
  | Some fields =>
      if negb (truthyString fieldToDelete) then None
      else Some (List.filter (fun g => negb (sameId (id g) fieldToDelete)) fields)
  end.

End Collection.

(* ===================================================================== *)
(** ** The media input: dropped files *)
(* ===================================================================== *)

Module Media.
Import JsString JsText.

(** The properties of a [File] the handler reads. *)
Record File : Type := mkFile {
  name : string;
  type : string;
  size : JsNumber
}.

(** The attributes the handler reads. *)
Record Attributes : Type := mkAttributes {
  accept : option string;
  minFileSize : option JsNumber;
  maxFileSize : option JsNumber;
  multiple : option bool
}.

(** What [onChange] receives: the array of files or the first of them. *)
Inductive Dropped : Type :=
| Files (files : list File)
| OneFile (file : File).

Definition truthyNumber (n : option JsNumber) : bool :=
  match n with Some v => JsNum.truthy v | None => false end.

(** [const [category] = acceptType.split('/')] *)
Definition category (acceptType : string) : string :=
  match split "/" acceptType with
  | piece :: _ => piece
  | [] => EmptyString
  end.

(** The callback of [acceptTypes.some]. *)
Definition matchesType (file : File) (acceptType : string) : bool :=
  if startsWith "." acceptType then
    endsWith (toLowerCase acceptType) (toLowerCase (name file))
  else if includesChar "*" acceptType then
    startsWith (category acceptType ++ "/") (type file)
  else String.eqb (type file) acceptType.

(** [attributes.accept.split(',').map(type => type.trim())] *)
Definition acceptTypes (accept : string) : list string :=
  List.map trim (split "," accept).

(** The callback of the size filter. *)
Definition sizeAllowed (attributes : Attributes) (file : File) : bool :=
  if truthyNumber (minFileSize attributes)
     && match minFileSize attributes with
        | Some lo => JsNum.lt (size file) lo
        | None => false
        end
  then false
  else if truthyNumber (maxFileSize attributes)
          && match maxFileSize attributes with
             | Some hi => JsNum.gt (size file) hi
             | None => false
             end
  then false
  else true.

(** The [onDrop] handler of the drop zone; [files] is
    [e.dataTransfer.files]. *)
Definition onDrop (attributes : Attributes) (files : list File) : Callback Dropped :=
  match files with
  | [] => NotInvoked
  | _ :: _ =>
      let validFiles := files in
      let validFiles :=
        if truthyString (accept attributes) then
          match accept attributes with
          | Some accepted =>
              List.filter
                (fun file => List.existsb (matchesType file) (acceptTypes accepted))
                files
          | None => validFiles
          end
        else validFiles in
      let validFiles :=
        if truthyNumber (minFileSize attributes) || truthyNumber (maxFileSize attributes)
        then List.filter (sizeAllowed attributes) validFiles
        else validFiles in
      match validFiles with
      | [] => NotInvoked
      | first :: _ =>
          Invoked (if truthyBool (multiple attributes) then Files validFiles
                   else OneFile first)
      end
  end.

(** *** The admissible files *)

(** A file the accept list lets through: no list, or an entry matches. *)
Definition typeAllowed (attributes : Attributes) (file : File) : bool :=
  match accept attributes with
  | Some accepted =>
      if nonEmpty accepted then List.existsb (matchesType file) (acceptTypes accepted)
      else true
  | None => true
  end.

Definition admissible (attributes : Attributes) (file : File) : bool :=
  typeAllowed attributes file && sizeAllowed attributes file.

End Media.

(* ===================================================================== *)
(** ** Key filters: the narrower and the wider classes *)
(* ===================================================================== *)

Module KeyClassOrder.
Import KeyFilter.

(** Pairs of classes, the first narrower than the second. *)
Definition narrower : list (KeyClass * KeyClass) :=
  [ (KPint, KInt); (KInt, KMoney); (KMoney, KNum);
    (KPint, KPnum); (KPnum, KNum);
    (KPint, KHex); (KHex, KAlphanum); (KAlpha, KAlphanum) ].

End KeyClassOrder.

(* ===================================================================== *)
(** ** More sample configurations *)
(* ===================================================================== *)

Module Examples.

(** [attributes = { keyfilter: 'num' }], and the same for other classes. *)
Definition numFilter : FieldAttributes.t :=
  FieldAttributes.mk (Some "num") None None None None None.
Definition moneyFilter : FieldAttributes.t :=
  FieldAttributes.mk (Some "money") None None None None None.

(** The phone mask, and a masked field without a slot character. *)
Definition phoneMask : string := "999-999-9999".

Definition noSlotAttributes : FieldAttributes.t :=
  FieldAttributes.mk None (Some phoneMask) None None None None.

Definition noSlotField : Field.t :=
  Field.mk "Phone" "phone" INPUT_MASK false None None None
           (Some noSlotAttributes) (Some (MaskSample.maskValidations phoneMask)).

(** [enumValues = ['red', 'dark green']] *)
Definition colours : list string := [ "red"; "dark green" ].

(** [attributes = { testId: 'title-input' }]: a property no case fills. *)
Definition customAttributes : gmap string JsValue :=
  {[ "testId" := JStr "title-input" ]}.

(** [attributes = { mask: '99/99' }] *)
Definition dateMaskAttributes : gmap string JsValue :=
  {[ "mask" := JStr "99/99" ]}.


(** Two stored fields and forms of the dialog for them. *)
Definition title : Collection.StoredField :=
  Collection.mkStored (Some "f1") Sample.hiddenTitle.
Definition phone : Collection.StoredField :=
  Collection.mkStored (Some "f2") (MaskSample.maskField phoneMask "_").
Definition titleEdited : Collection.StoredField :=
  Collection.mkStored (Some "f1") (MaskSample.maskField "99/99" "_").
Definition unknownEdited : Collection.StoredField :=
  Collection.mkStored (Some "f9") Sample.hiddenTitle.
Definition newField : Collection.StoredField :=
  Collection.mkStored None Sample.hiddenTitle.

End Examples.

(** Dropped files and attributes of a media input. *)
Module MediaExamples.

Definition photo : Media.File :=
  Media.mkFile "Cat.PNG" "image/png" (JsNum.ofZ 2048).
Definition notes : Media.File :=
  Media.mkFile "notes.txt" "text/plain" (JsNum.ofZ 120).
Definition scan : Media.File :=
  Media.mkFile "scan.pdf" "application/pdf" (JsNum.ofZ 900000).

(** [attributes = { accept: 'image/*, .pdf', maxFileSize: 100000 }] *)
Definition imagesAndPdf : Media.Attributes :=
  Media.mkAttributes (Some "image/*, .pdf") None (Some (JsNum.ofZ 100000)) None.

End MediaExamples.

(* ********************************************************************* *)
(** * Part II: properties of the model *)
(* ********************************************************************* *)

(* ===================================================================== *)
(** ** Input mask helpers *)
(* ===================================================================== *)

Module MaskFacts.
Import JsString Mask.

(** *** The phone pattern on ten digits *)
Lemma digit_not_dash c : isDigit c = true -> Ascii.eqb c "-" = false.
Proof.
  unfold isDigit, inRange, code. intros H.
  apply andb_true_iff in H as [H1 _].
  apply Nat.leb_le in H1. apply Ascii.eqb_neq. intros ->. vm_compute in H1. lia.
Qed.

(** One iteration on a digit slot that the next input character fills. *)
Lemma applyMaskStep_digit value slotChar out vi c :
  charAt value vi = Some c -> isDigit c = true ->
  applyMaskStep value slotChar (mkMaskState out vi) "9"
  = mkMaskState (out ++ single c) (S vi).
Proof.
  intros Hc Hd. unfold applyMaskStep. cbn [maskedValue valueIndex].
  rewrite Hc, Hd. reflexivity.
Qed.

(** One iteration on the literal dash while the next input is a digit. *)
Lemma applyMaskStep_dash value slotChar out vi c :
  charAt value vi = Some c -> isDigit c = true ->
  applyMaskStep value slotChar (mkMaskState out vi) "-"
  = mkMaskState (out ++ single "-") vi.
Proof.
  intros Hc Hd. unfold applyMaskStep. cbn [maskedValue valueIndex].
  rewrite Hc, (digit_not_dash c Hd). reflexivity.
Qed.

(** Running the loop one iteration at a time. *)
Lemma fold_left_step {A B : Type} (f : A -> B -> A) m rest st st' r :
  f st m = st' -> fold_left f rest st' = r -> fold_left f (m :: rest) st = r.
Proof. intros <- <-. reflexivity. Qed.

(** One iteration of [unmaskValue] under a digit slot and under the dash. *)
Lemma unmaskFrom_digit mask i c rest :
  charAt mask i = Some "9"%char -> isDigit c = true ->
  unmaskFrom mask i (String c rest) = String c (unmaskFrom mask (S i) rest).
Proof.
  intros Hm Hd. cbn [unmaskFrom]. unfold keepsChar. rewrite Hm, Hd. reflexivity.
Qed.

Lemma unmaskFrom_dash mask i c rest :
  charAt mask i = Some "-"%char ->
  unmaskFrom mask i (String c rest) = unmaskFrom mask (S i) rest.
Proof. intros Hm. cbn [unmaskFrom]. unfold keepsChar. rewrite Hm. reflexivity. Qed.

(** Any ten digits are laid out as ddd-ddd-dddd, and unmasking the layout
    gives the ten digits back. *)
Lemma phone_mask_round_trip d1 d2 d3 d4 d5 d6 d7 d8 d9 d10 :
  Forall (fun c => isDigit c = true) [d1; d2; d3; d4; d5; d6; d7; d8; d9; d10] ->
  let raw := string_of_list_ascii [d1; d2; d3; d4; d5; d6; d7; d8; d9; d10] in
  let masked :=
    string_of_list_ascii
      [d1; d2; d3; "-"%char; d4; d5; d6; "-"%char; d7; d8; d9; d10] in
  applyMask raw "999-999-9999" defaultSlotChar = masked
  /\ unmaskValue masked "999-999-9999" = raw.
Proof.
  intros H.
  repeat match goal with
         | H : Forall _ (_ :: _) |- _ => apply Forall_cons in H as [H' H]; revert H'
         end.
  clear H. intros H10 H9 H8 H7 H6 H5 H4 H3 H2 H1.
  cbn [string_of_list_ascii]. split.
  - unfold applyMask. cbn [nonEmpty negb orb list_ascii_of_string].
    match goal with
    | |- maskedValue ?loop = ?masked =>
        assert (Hloop : loop = mkMaskState masked 10); [|by rewrite Hloop]
    end.
    eapply fold_left_step; [by apply applyMaskStep_digit|].
    eapply fold_left_step; [by apply applyMaskStep_digit|].
    eapply fold_left_step; [by apply applyMaskStep_digit|].
    eapply fold_left_step; [by apply (applyMaskStep_dash _ _ _ _ d4)|].
    eapply fold_left_step; [by apply applyMaskStep_digit|].
    eapply fold_left_step; [by apply applyMaskStep_digit|].
    eapply fold_left_step; [by apply applyMaskStep_digit|].
    eapply fold_left_step; [by apply (applyMaskStep_dash _ _ _ _ d7)|].
    eapply fold_left_step; [by apply applyMaskStep_digit|].
    eapply fold_left_step; [by apply applyMaskStep_digit|].
    eapply fold_left_step; [by apply applyMaskStep_digit|].
    eapply fold_left_step; [by apply applyMaskStep_digit|].
    reflexivity.
  - unfold unmaskValue. cbn [nonEmpty negb orb].
    rewrite !unmaskFrom_digit by done.
    rewrite unmaskFrom_dash by done.
    rewrite !unmaskFrom_digit by done.
    rewrite unmaskFrom_dash by done.
    rewrite !unmaskFrom_digit by done.
    reflexivity.
Qed.

End MaskFacts.

(* ===================================================================== *)
(** ** The matcher of regular expressions *)
(* ===================================================================== *)

Module RegexFacts.
Import Regex.

(** *** Inversion lemmas *)
Lemma matches_void_inv s : Matches Void s -> False.
Proof. inversion 1. Qed.

Lemma matches_eps_inv s : Matches Eps s -> s = [].
Proof. by inversion 1. Qed.

Lemma matches_class_inv p s : Matches (Class p) s -> exists c, s = [c] /\ p c = true.
Proof. inversion 1; subst; eauto. Qed.

Lemma matches_seq_inv r1 r2 s :
  Matches (Seq r1 r2) s ->
  exists s1 s2, s = (s1 ++ s2)%list /\ Matches r1 s1 /\ Matches r2 s2.
Proof. inversion 1; subst; eauto. Qed.

Lemma matches_alt_inv r1 r2 s : Matches (Alt r1 r2) s -> Matches r1 s \/ Matches r2 s.
Proof. inversion 1; subst; auto. Qed.

(** A non-empty word of [r*] starts with a non-empty word of [r]. *)
Lemma star_cons_inv r c s :
  Matches (Star r) (c :: s) ->
  exists s1 s2, s = (s1 ++ s2)%list /\ Matches r (c :: s1) /\ Matches (Star r) s2.
Proof.
  intros H. remember (Star r) as r' eqn:Hr. remember (c :: s) as w eqn:Hw.
  revert c s Hw.
  induction H as [| | | | | |r0 s1 s2 H1 _ H2 IH2]; intros a w Hw;
    try discriminate.
  injection Hr as ->.
  destruct s1 as [|a1 s1].
  - simpl in Hw. by apply IH2.
  - simpl in Hw. injection Hw as -> <-. by exists s1, s2.
Qed.

(** *** Correctness of the matcher *)
Lemma nullable_spec r : nullable r = true <-> Matches r [].
Proof.
  induction r as [| |p|r1 IH1 r2 IH2|r1 IH1 r2 IH2|r IH]; simpl; split; intros H;
    try discriminate; try (by constructor).
  - by apply matches_void_inv in H.
  - apply matches_class_inv in H as (c & Hc & _). discriminate.
  - apply andb_true_iff in H as [H1 H2].
    change (@nil ascii) with (@nil ascii ++ [])%list.
    constructor; [by apply IH1 | by apply IH2].
  - apply matches_seq_inv in H as (s1 & s2 & Hs & H1 & H2).
    symmetry in Hs. apply app_eq_nil in Hs as [-> ->].
    apply andb_true_iff; split; [by apply IH1 | by apply IH2].
  - apply orb_true_iff in H as [H|H].
    + apply MAltL. by apply IH1.
    + apply MAltR. by apply IH2.
  - apply orb_true_iff.
    apply matches_alt_inv in H as [H|H]; [left; by apply IH1 | right; by apply IH2].
Qed.

Lemma deriv_spec c r : forall s, Matches (deriv c r) s <-> Matches r (c :: s).
Proof.
  induction r as [| |p|r1 IH1 r2 IH2|r1 IH1 r2 IH2|r IH]; intros s; simpl.
  - split; intros H; by apply matches_void_inv in H.
  - split; intros H; [by apply matches_void_inv in H | by apply matches_eps_inv in H].
  - destruct (p c) eqn:Hp; split; intros H.
    + apply matches_eps_inv in H as ->. by constructor.
    + apply matches_class_inv in H as (c' & Hc & _). injection Hc as <- ->. constructor.
    + by apply matches_void_inv in H.
    + apply matches_class_inv in H as (c' & Hc & Hp'). injection Hc as <- ->. congruence.
  - destruct (nullable r1) eqn:Hn; split; intros H.
    + apply matches_alt_inv in H as [H|H].
      * apply matches_seq_inv in H as (s1 & s2 & -> & Ha & Hb).
        change (c :: s1 ++ s2)%list with ((c :: s1) ++ s2)%list.
        constructor; [by apply IH1 | done].
      * change (c :: s) with ([] ++ c :: s)%list.
        constructor; [by apply nullable_spec | by apply IH2].
    + apply matches_seq_inv in H as (s1 & s2 & Hs & Ha & Hb).
      destruct s1 as [|c1 s1]; simpl in Hs.
      * subst s2. apply MAltR. by apply IH2.
      * injection Hs as <- ->. apply MAltL. constructor; [by apply IH1 | done].
    + apply matches_seq_inv in H as (s1 & s2 & -> & Ha & Hb).
      change (c :: s1 ++ s2)%list with ((c :: s1) ++ s2)%list.
      constructor; [by apply IH1 | done].
    + apply matches_seq_inv in H as (s1 & s2 & Hs & Ha & Hb).
      destruct s1 as [|c1 s1]; simpl in Hs.
      * apply nullable_spec in Ha. congruence.
      * injection Hs as <- ->. constructor; [by apply IH1 | done].
  - split; intros H; apply matches_alt_inv in H as [H|H];
      first [ apply MAltL; by apply IH1 | apply MAltR; by apply IH2 ].
  - split; intros H.
    + apply matches_seq_inv in H as (s1 & s2 & -> & Ha & Hb).
      change (c :: s1 ++ s2)%list with ((c :: s1) ++ s2)%list.
      constructor; [by apply IH | done].
    + apply star_cons_inv in H as (s1 & s2 & -> & Ha & Hb).
      constructor; [by apply IH | done].
Qed.

Lemma matchesb_spec r s : matchesb r s = true <-> Matches r s.
Proof.
  revert r. induction s as [|c s IH]; intros r; simpl.
  - apply nullable_spec.
  - rewrite IH. apply deriv_spec.
Qed.

Lemma test_spec r s : test r s = true <-> Matches r (list_ascii_of_string s).
Proof. apply matchesb_spec. Qed.

Lemma test_false r s : test r s = false <-> ~ Matches r (list_ascii_of_string s).
Proof.
  rewrite <- test_spec. destruct (test r s); split; intros H; congruence.
Qed.

End RegexFacts.

(* ===================================================================== *)
(** ** Key filters *)
(* ===================================================================== *)

Module KeyFilterFacts.
Import JsString Regex RegexFacts KeyFilter.

(** *** Languages of the building blocks *)
Lemma matches_seq r1 r2 w :
  Matches (Seq r1 r2) w <->
  exists w1 w2, w = (w1 ++ w2)%list /\ Matches r1 w1 /\ Matches r2 w2.
Proof.
  split; [apply matches_seq_inv|].
  intros (w1 & w2 & -> & H1 & H2). by constructor.
Qed.

Lemma matches_opt_chr c w : Matches (Opt (Chr c)) w <-> optional c w.
Proof.
  unfold Opt, Chr, optional. split.
  - intros H. apply matches_alt_inv in H as [H|H].
    + left. by apply matches_eps_inv.
    + right. apply matches_class_inv in H as (c' & -> & Hc).
      apply Ascii.eqb_eq in Hc. by subst.
  - intros [->| ->].
    + apply MAltL. constructor.
    + apply MAltR. constructor. apply Ascii.eqb_refl.
Qed.

Lemma matches_star_class p w : Matches (Star (Class p)) w <-> allOf p w.
Proof.
  unfold allOf. split.
  - intros H. remember (Star (Class p)) as r eqn:Hr.
    induction H as [| | | | | |r0 s1 s2 H1 _ H2 IH2]; try discriminate.
    + constructor.
    + injection Hr as ->.
      apply matches_class_inv in H1 as (c & -> & Hc).
      constructor; [done | by apply IH2].
  - induction 1 as [|c w Hc _ IH].
    + constructor.
    + change (c :: w) with ([c] ++ w)%list. constructor; [by constructor | done].
Qed.

Lemma matches_upto2_class p w :
  Matches (UpTo 2 (Class p)) w <-> allOf p w /\ (length w <= 2)%nat.
Proof.
  unfold allOf. simpl. unfold Opt. split.
  - intros H. apply matches_alt_inv in H as [H|H].
    { apply matches_eps_inv in H as ->. split; [constructor | simpl; lia]. }
    apply matches_seq_inv in H as (w1 & w2 & -> & H1 & H2).
    apply matches_class_inv in H1 as (c1 & -> & Hc1).
    apply matches_alt_inv in H2 as [H2|H2].
    { apply matches_eps_inv in H2 as ->. split; [by repeat constructor | simpl; lia]. }
    apply matches_seq_inv in H2 as (w3 & w4 & -> & H3 & H4).
    apply matches_class_inv in H3 as (c2 & -> & Hc2).
    apply matches_eps_inv in H4 as ->.
    split; [by repeat constructor | simpl; lia].
  - intros [Hall Hlen].
    destruct w as [|c1 [|c2 [|c3 w]]]; simpl in Hlen; try lia.
    + apply MAltL. constructor.
    + apply MAltR. inversion Hall; subst.
      change [c1] with ([c1] ++ [])%list.
      constructor; [by constructor | apply MAltL; constructor].
    + apply MAltR. inversion Hall as [|? ? Hc1 Hall']; subst.
      inversion Hall' as [|? ? Hc2 _]; subst.
      change [c1; c2] with ([c1] ++ ([c2] ++ []))%list.
      constructor; [by constructor |].
      apply MAltR. constructor; [by constructor | constructor].
Qed.

(** The pattern of each class describes exactly what the class admits. *)
Lemma classPattern_admits k w : Matches (classPattern k) w <-> admits k w.
Proof.
  destruct k; simpl;
    unfold reInt, rePint, reNum, rePnum, reMoney, reHex, reAlpha, reAlphanum, digit;
    repeat setoid_rewrite matches_seq;
    repeat setoid_rewrite matches_opt_chr;
    repeat setoid_rewrite matches_upto2_class;
    repeat setoid_rewrite matches_star_class;
    try reflexivity.
  - split.
    + intros (sg & r1 & -> & Hs & i & r2 & -> & Hi & pt & fr & -> & Hp & Hf).
      by exists sg, i, pt, fr.
    + intros (sg & i & pt & fr & -> & Hs & Hi & Hp & Hf).
      exists sg, (i ++ pt ++ fr)%list. repeat split; try done.
      exists i, (pt ++ fr)%list. repeat split; try done.
      by exists pt, fr.
  - split.
    + intros (i & r2 & -> & Hi & pt & fr & -> & Hp & Hf). by exists i, pt, fr.
    + intros (i & pt & fr & -> & Hi & Hp & Hf).
      exists i, (pt ++ fr)%list. repeat split; try done.
      by exists pt, fr.
  - split.
    + intros (sg & r1 & -> & Hs & i & r2 & -> & Hi & pt & fr & -> & Hp & Hf & Hl).
      by exists sg, i, pt, fr.
    + intros (sg & i & pt & fr & -> & Hs & Hi & Hp & Hf & Hl).
      exists sg, (i ++ pt ++ fr)%list. repeat split; try done.
      exists i, (pt ++ fr)%list. repeat split; try done.
      by exists pt, fr.
Qed.

(** The handler's decision for an attribute set whose key filter is one of
    the eight classes. *)
Lemma textOnChange_class k attributes inputValue :
  FieldAttributes.keyfilter attributes = Some (className k) ->
  textOnChange attributes inputValue =
    if test (classPattern k) inputValue then Invoked inputValue else NotInvoked.
Proof.
  intros Hk. unfold textOnChange. rewrite Hk.
  destruct k; simpl; by destruct (test _ inputValue).
Qed.

End KeyFilterFacts.

(* ===================================================================== *)
(** ** Password strength *)
(* ===================================================================== *)

Module PasswordFacts.
Import JsString Password.

Lemma satisfied_le_six password : (satisfied password <= 6)%nat.
Proof.
  unfold satisfied, criteria.
  destruct (8 <=? _)%nat, (12 <=? _)%nat,
    (anyChar isUpper _), (anyChar isLower _), (anyChar isDigit _),
    (anyChar isSpecial _); simpl; lia.
Qed.

Lemma getPasswordStrength_classify password :
  getPasswordStrength password = classify (satisfied password).
Proof.
  unfold getPasswordStrength, satisfied, criteria, classify.
  destruct password as [|c rest]; [reflexivity|].
  cbn [nonEmpty negb].
  destruct (8 <=? _)%nat, (12 <=? _)%nat,
    (anyChar isUpper _), (anyChar isLower _), (anyChar isDigit _),
    (anyChar isSpecial _); reflexivity.
Qed.

End PasswordFacts.

(* ===================================================================== *)
(** ** Field type registry *)
(* ===================================================================== *)

Module RegistryFacts.
Import Registry.

Lemma includes_false_iff name :
  includes enumValues name = false <-> forall k, enumValue k <> name.
Proof.
  unfold includes, enumValues. split.
  - intros H k Hk.
    assert (Hin : In (enumValue k) (List.map enumValue enumMembers)).
    { apply in_map. destruct k; simpl; tauto. }
    assert (Hex : List.existsb (String.eqb name) (List.map enumValue enumMembers) = true).
    { apply existsb_exists. exists (enumValue k). split; [done|].
      subst name. apply String.eqb_refl. }
    congruence.
  - intros H. apply not_true_is_false. intros Hex.
    apply existsb_exists in Hex as (v & Hin & Hv).
    apply in_map_iff in Hin as (k & <- & _).
    apply String.eqb_eq in Hv. by apply (H k).
Qed.

(** A name found among the values is the value of the member [asEnum]
    returns, so the cast never falls through. *)
Lemma asEnum_includes name :
  includes enumValues name = true ->
  exists k, asEnum name = Some k /\ enumValue k = name.
Proof.
  unfold includes, enumValues. intros H.
  apply existsb_exists in H as (v & Hin & Hv).
  apply in_map_iff in Hin as (k & <- & _).
  apply String.eqb_eq in Hv. subst name.
  exists k. split; [|done]. destruct k; reflexivity.
Qed.

Lemma mapFieldTypeNameToEnum_member k :
  mapFieldTypeNameToEnum (enumValue k) = (k, []).
Proof. destruct k; vm_compute; reflexivity. Qed.

Lemma mapFieldTypeNameToEnum_unknown name :
  (forall k, enumValue k <> name) ->
  mapFieldTypeNameToEnum name = (TEXT, [notFoundWarning name]).
Proof.
  intros H. apply includes_false_iff in H.
  unfold mapFieldTypeNameToEnum. by rewrite H.
Qed.

End RegistryFacts.

(* ===================================================================== *)
(** ** Dispatch and visibility *)
(* ===================================================================== *)

Module RendererFacts.
Import Renderer.

Lemma renderField_visible field value :
  Field.isVisible field <> Some false ->
  exists element,
    renderField field value = Some element
    /\ widget element = widgetOf (Field.type field)
    /\ current element = value.
Proof.
  intros H. unfold renderField.
  destruct (Field.isVisible field) as [[|]|]; try congruence; eauto.
Qed.

End RendererFacts.

(* ===================================================================== *)
(** ** Default fill *)
(* ===================================================================== *)

Module ConfigFacts.
Import Config.

Lemma getProp_setProp_eq key v (o : JsObject) : getProp (setProp key v o) key = v.
Proof. unfold getProp, setProp. by rewrite lookup_insert_eq. Qed.

Lemma getProp_setProp_ne key key' v (o : JsObject) :
  key <> key' -> getProp (setProp key v o) key' = getProp o key'.
Proof. intros H. unfold getProp, setProp. by rewrite lookup_insert_ne. Qed.

Lemma getProp_exec_ne s (o : JsObject) key :
  target s <> key -> getProp (exec s o) key = getProp o key.
Proof. intros H. unfold exec. by apply getProp_setProp_ne. Qed.

Lemma or_resting v d : Js.or (Js.or v d) d = Js.or v d.
Proof.
  unfold Js.or. destruct (Js.truthy v) eqn:Hv; [by rewrite Hv|].
  by destruct (Js.truthy d).
Qed.

Lemma exec_settles s (o : JsObject) : stable s -> settled s (exec s o).
Proof.
  intros Hs. unfold settled, exec. split.
  - unfold setProp. rewrite lookup_insert_eq. eauto.
  - rewrite getProp_setProp_eq.
    destruct s as [k d|k d|k e]; simpl in *.
    + apply or_resting.
    + destruct (Js.isDefined (getProp o k)) eqn:Hd; [by rewrite Hd|].
      by destruct (Js.isDefined d).
    + unfold Js.or. destruct (Js.truthy (getProp o k)) eqn:Hv; [done | apply Hs].
Qed.

Lemma exec_keeps_settled s t (o : JsObject) :
  target t <> target s -> settled s o -> settled s (exec t o).
Proof.
  intros Hne [Hsome Hrest]. unfold settled. split.
  - unfold exec, setProp. by rewrite lookup_insert_ne.
  - by rewrite getProp_exec_ne.
Qed.

Lemma exec_settled_id s (o : JsObject) : settled s o -> exec s o = o.
Proof.
  intros [[v Hv] Hrest]. unfold exec, setProp. apply insert_id.
  rewrite Hv. f_equal.
  assert (Hget : getProp o (target s) = v) by (unfold getProp; by rewrite Hv).
  rewrite Hget in Hrest.
  destruct s as [k d|k d|k e]; simpl in *; rewrite ?Hget.
  - done.
  - done.
  - unfold Js.or. by rewrite Hrest.
Qed.

Lemma run_keeps_settled s block : forall o : JsObject,
  target s ∉ List.map target block -> settled s o -> settled s (run block o).
Proof.
  induction block as [|t block IH]; intros o Hnin Hs; [done|].
  simpl in *. apply not_elem_of_cons in Hnin as [Hne Hnin].
  apply IH; [done|]. apply exec_keeps_settled; [congruence | done].
Qed.

Lemma run_settles block : forall o : JsObject,
  Forall stable block -> NoDup (List.map target block) ->
  Forall (fun s => settled s (run block o)) block.
Proof.
  induction block as [|s block IH]; intros o Hst Hnd; [constructor|].
  inversion Hst as [|? ? Hs Hst']; subst.
  simpl in Hnd. apply NoDup_cons in Hnd as [Hnin Hnd'].
  constructor.
  - simpl. apply run_keeps_settled; [done | by apply exec_settles].
  - simpl. by apply IH.
Qed.

Lemma run_settled_id block : forall o : JsObject,
  Forall (fun s => settled s o) block -> run block o = o.
Proof.
  induction block as [|s block IH]; intros o H; [done|].
  inversion H as [|? ? Hs H']; subst. simpl.
  rewrite (exec_settled_id s o Hs). by apply IH.
Qed.

(** A block of stable assignments to distinct properties is idempotent. *)
Lemma run_idempotent block (o : JsObject) :
  Forall stable block -> NoDup (List.map target block) ->
  run block (run block o) = run block o.
Proof. intros Hst Hnd. apply run_settled_id. by apply run_settles. Qed.

(** Every block of the switch assigns to distinct properties, and its only
    computed default is an object literal. *)
Lemma attributeDefaults_distinct type : NoDup (List.map target (attributeDefaults type)).
Proof. destruct type; apply (bool_decide_unpack _); vm_compute; reflexivity. Qed.

Lemma attributeDefaults_stable type : Forall stable (attributeDefaults type).
Proof. destruct type; simpl; repeat constructor. Qed.

Lemma validationDefaults_distinct type attributes :
  NoDup (List.map target (validationDefaults type attributes)).
Proof. destruct type; apply (bool_decide_unpack _); vm_compute; reflexivity. Qed.

Lemma validationDefaults_stable type attributes :
  Forall stable (validationDefaults type attributes).
Proof. destruct type; simpl; repeat constructor. Qed.

Lemma defaultFill_idempotent type attributes validations :
  let filled := defaultFill type attributes validations in
  defaultFill type (Some (fst filled)) (Some (snd filled)) = filled.
Proof.
  unfold defaultFill. simpl.
  rewrite run_idempotent
    by (apply attributeDefaults_stable || apply attributeDefaults_distinct).
  rewrite run_idempotent
    by (apply validationDefaults_stable || apply validationDefaults_distinct).
  reflexivity.
Qed.

End ConfigFacts.

(* ===================================================================== *)
(** ** apiId derivation *)
(* ===================================================================== *)

Module DialogFacts.
Import JsString Dialog.

Lemma stripNonIdChars_allChars s : allChars isIdChar (stripNonIdChars s) = true.
Proof.
  induction s as [|c rest IH]; [done|]. simpl.
  destruct (isIdChar c) eqn:Hc; [|done]. simpl. by rewrite Hc.
Qed.

(** A derived identifier holds only lowercase letters, digits and
    underscores. *)
Lemma deriveApiId_chars name' : allChars isIdChar (deriveApiId name') = true.
Proof. apply stripNonIdChars_allChars. Qed.

(** For a new field every name change rewrites the API ID. *)
Lemma handleNameChange_new typed form :
  handleNameChange None typed form = mkForm typed (deriveApiId typed).
Proof. reflexivity. Qed.

(** For a saved field with an API ID the name change leaves it alone. *)
Lemma handleNameChange_saved f typed form :
  nonEmpty (Field.apiId f) = true ->
  handleNameChange (Some f) typed form = mkForm typed (apiId form).
Proof. intros H. unfold handleNameChange. simpl. by rewrite H. Qed.

End DialogFacts.

(* ===================================================================== *)
(** ** Blur-time validation *)
(* ===================================================================== *)

Module BlurFacts.
Import JsString Blur.

(** The TEXT blur handler computes invalid exactly when one of its three
    rules fails. *)
Lemma textOnBlur_isValid regExpTest field value :
  let v := default FieldValidations.empty (Field.validations field) in
  isValid (textOnBlur regExpTest field value)
  = negb (minLengthFails v value || maxLengthFails v value
          || regexFails regExpTest v value).
Proof.
  unfold textOnBlur, minLengthFails, maxLengthFails, regexFails. simpl.
  destruct (default FieldValidations.empty (Field.validations field))
    as [req minL maxL re minV maxV minF maxF url msk unm]. simpl.
  destruct minL as [n|]; [destruct (JsNum.truthy n && shorterThan value n)|];
    (destruct maxL as [m|]; [destruct (JsNum.truthy m && longerThan value m)|]);
    (destruct re as [pattern|];
       [destruct (nonEmpty pattern && nonEmpty value);
          [destruct (regExpTest pattern value) as [[|]|]|]|]);
    reflexivity.
Qed.

(** The outcome of the TEXT blur handler does not depend on [required]. *)
Lemma textOnBlur_required_irrelevant regExpTest f v r value :
  textOnBlur regExpTest (withValidations (withRequired r v) f) value
  = textOnBlur regExpTest (withValidations v f) value.
Proof. reflexivity. Qed.

End BlurFacts.

(* ===================================================================== *)
(** ** Number input *)
(* ===================================================================== *)

Module NumberInputFacts.
Import JsString NumberInput.

(** *** The order on numbers *)

(** [<] on numbers is transitive. *)
Lemma lt_trans x y z :
  JsNum.lt x y = true -> JsNum.lt y z = true -> JsNum.lt x z = true.
Proof.
  unfold JsNum.lt, SFltb.
  destruct x as [sx|sx| |sx mx ex], y as [sy|sy| |sy my ey], z as [sz|sz| |sz mz ez];
    try destruct sx; try destruct sy; try destruct sz; simpl;
    try discriminate; try reflexivity;
    change (Pos.compare_cont Eq) with Pos.compare;
    repeat match goal with
           | |- context [Z.compare ?a ?b] => destruct (Z.compare_spec a b)
           | |- context [Pos.compare ?a ?b] => destruct (Pos.compare_spec a b)
           end; simpl; try discriminate; try reflexivity; intros _ _; exfalso; lia.
Qed.

Lemma numberOnChange_below parseFloat attributes val lo :
  nonEmpty val = true ->
  FieldAttributes.min attributes = Some lo ->
  JsNum.lt (parseFloat val) lo = true ->
  boundsOrdered attributes ->
  numberOnChange parseFloat attributes val = Invoked (Some lo).
Proof.
  intros Hval Hmin Hlt Hord. unfold numberOnChange, boundsOrdered in *.
  rewrite Hval, Hmin in *. rewrite Hlt.
  destruct (FieldAttributes.max attributes) as [hi|]; [|done].
  by rewrite Hord.
Qed.

Lemma numberOnChange_above parseFloat attributes val hi :
  nonEmpty val = true ->
  FieldAttributes.max attributes = Some hi ->
  JsNum.gt (parseFloat val) hi = true ->
  numberOnChange parseFloat attributes val = Invoked (Some hi).
Proof.
  intros Hval Hmax Hgt. unfold numberOnChange.
  rewrite Hval, Hmax.
  destruct (FieldAttributes.min attributes) as [lo|]; [|by rewrite Hgt].
  destruct (JsNum.lt (parseFloat val) lo) eqn:Hlt; [|by rewrite Hgt].
  assert (Hcross : JsNum.gt lo hi = true).
  { unfold JsNum.gt in *. by apply (lt_trans hi (parseFloat val) lo). }
  by rewrite Hcross.
Qed.

Lemma numberOnChange_empty parseFloat attributes :
  numberOnChange parseFloat attributes EmptyString = Invoked None.
Proof. reflexivity. Qed.

End NumberInputFacts.

(* ===================================================================== *)
(** ** String methods *)
(* ===================================================================== *)

Module JsTextFacts.
Import JsString JsText.

Lemma split_not_nil sep s : split sep s <> [].
Proof.
  destruct s as [|c rest]; simpl; [done|].
  destruct (Ascii.eqb c sep); [done|]. by destruct (split sep rest).
Qed.

Lemma join_cons_char sep c piece pieces :
  join sep (String c piece :: pieces) = String c (join sep (piece :: pieces)).
Proof. by destruct pieces. Qed.

(** Joining the pieces of a split gives the string back. *)
Lemma join_split sep s : join sep (split sep s) = s.
Proof.
  induction s as [|c rest IH]; [done|]. simpl.
  destruct (Ascii.eqb c sep) eqn:Hc.
  - apply Ascii.eqb_eq in Hc as ->.
    pose proof (split_not_nil sep rest) as Hne.
    destruct (split sep rest) as [|piece pieces]; [done|].
    change (join sep (EmptyString :: piece :: pieces))
      with (String sep (join sep (piece :: pieces))).
    by rewrite IH.
  - pose proof (split_not_nil sep rest) as Hne.
    destruct (split sep rest) as [|piece pieces]; [done|].
    rewrite join_cons_char. by rewrite IH.
Qed.


Lemma split_append sep piece s :
  includesChar sep piece = false ->
  split sep (piece ++ String sep s) = piece :: split sep s.
Proof.
  unfold includesChar. induction piece as [|c piece IH]; simpl; intros H.
  - by rewrite Ascii.eqb_refl.
  - apply orb_false_iff in H as [Hc Hrest].
    rewrite Ascii.eqb_sym, Hc. by rewrite IH.
Qed.

Lemma split_free sep piece :
  includesChar sep piece = false -> split sep piece = [piece].
Proof.
  unfold includesChar. induction piece as [|c piece IH]; simpl; intros H; [done|].
  apply orb_false_iff in H as [Hc Hrest].
  rewrite Ascii.eqb_sym, Hc. by rewrite IH.
Qed.

(** Splitting the join of separator-free pieces gives the pieces back. *)
Lemma split_join sep pieces :
  pieces <> [] ->
  Forall (fun piece => includesChar sep piece = false) pieces ->
  split sep (join sep pieces) = pieces.
Proof.
  induction pieces as [|piece [|next others] IH]; intros Hne Hfree; [done| |].
  - inversion Hfree; subst. by apply split_free.
  - inversion Hfree as [|? ? Hpiece Hrest]; subst.
    change (join sep (piece :: next :: others))
      with (piece ++ String sep (join sep (next :: others))).
    rewrite split_append by done. by rewrite IH.
Qed.

End JsTextFacts.

(* ===================================================================== *)
(** ** The dialog: enumeration values, labels, dropdown options *)
(* ===================================================================== *)

Module EnumValuesFacts.
Import JsString JsText JsTextFacts EnumValues.

Lemma filter_all {A : Type} (p : A -> bool) (l : list A) :
  Forall (fun x => p x = true) l -> List.filter p l = l.
Proof.
  induction 1 as [|x l Hx _ IH]; [done|]. simpl. by rewrite Hx, IH.
Qed.


Lemma parseValues_defaultText values :
  Forall (fun v => singleLine v = true /\ notBlank v = true) values ->
  parseValues (defaultText (Some values)) = values.
Proof.
  intros H. unfold parseValues, defaultText.
  destruct values as [|v values]; [reflexivity|].
  rewrite split_join.
  - apply filter_all. eapply Forall_impl; [exact H|]. by intros x [_ Hx].
  - done.
  - eapply Forall_impl; [exact H|]. intros x [Hx _].
    unfold singleLine in Hx. by apply negb_true_iff in Hx.
Qed.

End EnumValuesFacts.

Module LabelsFacts.
Import Labels.

Lemma label_not_empty k : JsString.nonEmpty (getFieldTypeLabel k) = true.
Proof. by destruct k. Qed.

Lemma label_injective k k' : getFieldTypeLabel k = getFieldTypeLabel k' -> k = k'.
Proof. destruct k, k'; simpl; intros H; first [reflexivity | discriminate H]. Qed.

End LabelsFacts.

Module OptionsFacts.
Import Options.

Lemma filterIndex_remove {A : Type} (l : list A) : forall index start,
  filterIndex (fun i => negb (i =? index)%nat) start l
  = if (index <? start)%nat then l
    else (take (index - start) l ++ drop (S (index - start)) l)%list.
Proof.
  induction l as [|x l IH]; intros index start; simpl.
  - destruct (index <? start)%nat; [done|]. by rewrite take_nil.
  - rewrite IH.
    destruct (index <? start)%nat eqn:Hlt.
    + apply Nat.ltb_lt in Hlt.
      destruct (start =? index)%nat eqn:He; [apply Nat.eqb_eq in He; lia|]. simpl.
      destruct (index <? S start)%nat eqn:Hlt'; [done|].
      apply Nat.ltb_ge in Hlt'. lia.
    + apply Nat.ltb_ge in Hlt.
      destruct (start =? index)%nat eqn:He.
      * apply Nat.eqb_eq in He. subst index. simpl.
        rewrite Nat.sub_diag. simpl. rewrite drop_0.
        destruct (start <? S start)%nat eqn:Hlt'; [done|].
        apply Nat.ltb_ge in Hlt'. lia.
      * apply Nat.eqb_neq in He. simpl.
        destruct (index <? S start)%nat eqn:Hlt'; [apply Nat.ltb_lt in Hlt'; lia|].
        replace (index - start)%nat with (S (index - S start)) by lia.
        reflexivity.
Qed.

(** The remove button deletes exactly the option at [index]. *)
Lemma removeOption_take_drop index options :
  removeOption index (Some options)
  = (take index options ++ drop (S index) options)%list.
Proof.
  unfold removeOption. simpl. rewrite filterIndex_remove. simpl.
  by rewrite Nat.sub_0_r.
Qed.

End OptionsFacts.

(* ===================================================================== *)
(** ** The derived API ID and the field schema *)
(* ===================================================================== *)

Module ApiIdFacts.
Import JsString Dialog FieldSchema.

(** A character of a derived identifier is neither uppercase nor
    whitespace, and it is a word character of the schema's pattern. *)
Lemma idChar_classes c :
  isIdChar c = true ->
  isUpper c = false /\ isSpace c = false /\ isWordChar c = true.
Proof.
  destruct c as [b0 b1 b2 b3 b4 b5 b6 b7].
  destruct b0, b1, b2, b3, b4, b5, b6, b7; vm_compute; intros H;
    first [discriminate H | by repeat split].
Qed.

Lemma toLowerCase_idChars s : allChars isIdChar s = true -> toLowerCase s = s.
Proof.
  induction s as [|c rest IH]; [done|]. simpl. intros H.
  apply andb_true_iff in H as [Hc Hrest].
  destruct (idChar_classes c Hc) as (Hup & _ & _).
  unfold lowerChar. by rewrite Hup, IH.
Qed.

Lemma replaceSpaceRuns_idChars s : forall inRun,
  allChars isIdChar s = true -> replaceSpaceRuns inRun s = s.
Proof.
  induction s as [|c rest IH]; intros inRun H; [done|]. simpl in *.
  apply andb_true_iff in H as [Hc Hrest].
  destruct (idChar_classes c Hc) as (_ & Hsp & _).
  by rewrite Hsp, IH.
Qed.

Lemma stripNonIdChars_idChars s :
  allChars isIdChar s = true -> stripNonIdChars s = s.
Proof.
  induction s as [|c rest IH]; [done|]. simpl. intros H.
  apply andb_true_iff in H as [Hc Hrest]. by rewrite Hc, IH.
Qed.

Lemma deriveApiId_fixed s : allChars isIdChar s = true -> deriveApiId s = s.
Proof.
  intros H. unfold deriveApiId.
  rewrite toLowerCase_idChars, replaceSpaceRuns_idChars by done.
  by apply stripNonIdChars_idChars.
Qed.

Lemma allChars_Forall p s :
  allChars p s = true -> Forall (fun c => p c = true) (list_ascii_of_string s).
Proof.
  induction s as [|c rest IH]; simpl; intros H; [constructor|].
  apply andb_true_iff in H as [Hc Hrest]. constructor; [done | by apply IH].
Qed.

Lemma allChars_impl (p q : ascii -> bool) s :
  (forall c, p c = true -> q c = true) -> allChars p s = true -> allChars q s = true.
Proof.
  intros Hpq. induction s as [|c rest IH]; [done|]. simpl. intros H.
  apply andb_true_iff in H as [Hc Hrest]. by rewrite (Hpq c Hc), IH.
Qed.

(** A non-empty string of word characters matches the schema's pattern. *)
Lemma reApiId_wordChars s :
  nonEmpty s = true -> allChars isWordChar s = true -> Regex.test reApiId s = true.
Proof.
  intros Hne Hall. apply RegexFacts.test_spec.
  destruct s as [|c rest]; [done|]. simpl in *.
  apply andb_true_iff in Hall as [Hc Hrest].
  change (c :: list_ascii_of_string rest) with ([c] ++ list_ascii_of_string rest)%list.
  constructor; [by constructor|].
  apply KeyFilterFacts.matches_star_class. unfold KeyFilter.allOf.
  by apply allChars_Forall.
Qed.

Lemma deriveApiId_accepted name :
  apiIdAccepted (deriveApiId name) = (2 <=? String.length (deriveApiId name))%nat.
Proof.
  unfold apiIdAccepted.
  destruct (2 <=? String.length (deriveApiId name))%nat eqn:Hlen; [|done]. simpl.
  apply reApiId_wordChars.
  - apply Nat.leb_le in Hlen. destruct (deriveApiId name); simpl in *; [lia | done].
  - eapply allChars_impl; [|apply DialogFacts.deriveApiId_chars].
    intros c Hc. by destruct (idChar_classes c Hc) as (_ & _ & Hw).
Qed.

End ApiIdFacts.

(* ===================================================================== *)
(** ** Default fill: what a block computes at each key *)
(* ===================================================================== *)

Module FillFacts.
Import Config ConfigFacts.

(** A key that no assignment of the block targets is left as it was. *)
Lemma run_frame block : forall (o : JsObject) key,
  ~ In key (List.map target block) -> run block o !! key = o !! key.
Proof.
  induction block as [|s block IH]; intros o key Hnin; [done|]. simpl in *.
  rewrite IH by tauto. unfold exec, setProp.
  apply lookup_insert_ne. tauto.
Qed.

Lemma NoDup_cons_In (x : string) l : NoDup (x :: l) -> ~ In x l /\ NoDup l.
Proof.
  intros H. apply NoDup_cons in H as [Hnin Hnd]. split; [|done].
  intros Hin. apply Hnin. by apply list_elem_of_In.
Qed.

(** In a block with distinct targets every assignment acts on the value the
    object had at its key before the block ran. *)
Lemma run_assigned block : forall (o : JsObject) s,
  NoDup (List.map target block) -> In s block ->
  (forall k e, s <> OrComputed k e) ->
  run block o !! target s = Some (rhs s o).
Proof.
  induction block as [|t block IH]; intros o s Hnd Hin Hs; [done|].
  simpl in Hnd. apply NoDup_cons_In in Hnd as [Hnin Hnd]. simpl.
  destruct Hin as [->|Hin].
  - rewrite run_frame by done. unfold exec, setProp. by rewrite lookup_insert_eq.
  - assert (Hne : target t <> target s).
    { intros Heq. apply Hnin. rewrite Heq. by apply in_map. }
    rewrite (IH (exec t o) s Hnd Hin Hs). f_equal.
    destruct s as [k d|k d|k e]; simpl in *.
    + by rewrite getProp_exec_ne.
    + by rewrite getProp_exec_ne.
    + by destruct (Hs k e).
Qed.

Lemma run_orDefault block (o : JsObject) k d :
  NoDup (List.map target block) -> In (OrDefault k d) block ->
  run block o !! k = Some (Js.or (getProp o k) d).
Proof. intros Hnd Hin. by apply (run_assigned block o (OrDefault k d)). Qed.

End FillFacts.

(* ===================================================================== *)
(** ** The default fill: the values a block keeps *)
(* ===================================================================== *)

Module KeptFacts.
Import Config.





End KeptFacts.

(* ===================================================================== *)
(** ** Key filters: prefixes, inclusions, the text area *)
(* ===================================================================== *)

Module KeyClassFacts.
Import JsString Regex KeyFilter KeyFilterFacts.

Lemma list_ascii_of_string_app s1 s2 :
  list_ascii_of_string (s1 ++ s2)
  = (list_ascii_of_string s1 ++ list_ascii_of_string s2)%list.
Proof. induction s1 as [|c s1 IH]; [done|]. simpl. by rewrite IH. Qed.

(** Where the last character of a concatenation comes from. *)
Lemma snoc_split (l1 l2 w : list ascii) c :
  (l1 ++ l2 = w ++ [c])%list ->
  (l2 = [] /\ l1 = (w ++ [c])%list)
  \/ exists l2', l2 = (l2' ++ [c])%list /\ w = (l1 ++ l2')%list.
Proof.
  destruct l2 as [|x l2] using rev_ind; intros H.
  - left. rewrite app_nil_r in H. by split.
  - right. rewrite app_assoc in H. apply app_inj_tail in H as [Hw ->].
    by exists l2.
Qed.

Lemma optional_snoc c0 (w : list ascii) c :
  optional c0 (w ++ [c])%list -> w = [].
Proof.
  intros [H|H].
  - by destruct w.
  - destruct w as [|x [|y w]]; [done| |]; simpl in H; discriminate H.
Qed.

Lemma allOf_snoc p (w : list ascii) c : allOf p (w ++ [c])%list -> allOf p w.
Proof. unfold allOf. intros H. by apply Forall_app in H as [H _]. Qed.

Lemma allOf_nil p : allOf p [].
Proof. constructor. Qed.

Lemma optional_nil c : optional c [].
Proof. by left. Qed.

(** Every class admits the empty value. *)
Lemma admits_nil k : admits k [].
Proof.
  destruct k; simpl; try apply allOf_nil.
  - exists [], []. repeat split; auto using allOf_nil, optional_nil.
  - exists [], [], [], []. repeat split; auto using allOf_nil, optional_nil.
  - exists [], [], []. repeat split; auto using allOf_nil, optional_nil.
  - exists [], [], [], []. repeat split; auto using allOf_nil, optional_nil.
Qed.

(** Dropping the last character of an admitted value leaves an admitted
    value. *)
Lemma admits_snoc k (w : list ascii) c : admits k (w ++ [c])%list -> admits k w.
Proof.
  destruct k; simpl; try apply allOf_snoc.
  - (* int *)
    intros (sg & ds & H & Hsg & Hds). symmetry in H.
    apply snoc_split in H as [[-> H]|(ds' & -> & ->)].
    + subst sg. apply optional_snoc in Hsg as ->. apply (admits_nil KInt).
    + exists sg, ds'. repeat split; [done | by apply allOf_snoc in Hds].
  - (* num *)
    intros (sg & i & pt & fr & H & Hsg & Hi & Hpt & Hfr). symmetry in H.
    apply snoc_split in H as [[Hrest H]|(r & Hrest & ->)].
    { subst sg. apply optional_snoc in Hsg as ->. apply (admits_nil KNum). }
    apply snoc_split in Hrest as [[Hq ->]|(q & Hq & ->)].
    { exists sg, r, [], []. rewrite !app_nil_r.
      repeat split; auto using allOf_nil, optional_nil. by apply allOf_snoc in Hi. }
    apply snoc_split in Hq as [[-> ->]|(f & -> & ->)].
    { apply optional_snoc in Hpt as ->.
      exists sg, i, [], []. repeat split; auto using allOf_nil, optional_nil. }
    exists sg, i, pt, f. repeat split; try done. by apply allOf_snoc in Hfr.
  - (* pnum *)
    intros (i & pt & fr & H & Hi & Hpt & Hfr). symmetry in H.
    apply snoc_split in H as [[Hq ->]|(q & Hq & ->)].
    { exists w, [], []. rewrite !app_nil_r.
      repeat split; auto using allOf_nil, optional_nil. by apply allOf_snoc in Hi. }
    apply snoc_split in Hq as [[-> ->]|(f & -> & ->)].
    { apply optional_snoc in Hpt as ->.
      exists i, [], []. repeat split; auto using allOf_nil, optional_nil. }
    exists i, pt, f. repeat split; try done. by apply allOf_snoc in Hfr.
  - (* money *)
    intros (sg & i & pt & fr & H & Hsg & Hi & Hpt & Hfr & Hlen). symmetry in H.
    apply snoc_split in H as [[Hrest H]|(r & Hrest & ->)].
    { subst sg. apply optional_snoc in Hsg as ->. apply (admits_nil KMoney). }
    apply snoc_split in Hrest as [[Hq ->]|(q & Hq & ->)].
    { exists sg, r, [], []. rewrite !app_nil_r.
      repeat split; auto using allOf_nil, optional_nil.
      by apply allOf_snoc in Hi. }
    apply snoc_split in Hq as [[-> ->]|(f & -> & ->)].
    { apply optional_snoc in Hpt as ->.
      exists sg, i, [], []. repeat split; auto using allOf_nil, optional_nil. }
    exists sg, i, pt, f. repeat split; try done.
    + by apply allOf_snoc in Hfr.
    + rewrite length_app in Hlen. simpl in Hlen. lia.
Qed.

(** Every prefix of an admitted value is admitted. *)
Lemma admits_prefix k (w1 w2 : list ascii) : admits k (w1 ++ w2)%list -> admits k w1.
Proof.
  induction w2 as [|c w2 IH] using rev_ind; intros H.
  - by rewrite app_nil_r in H.
  - rewrite app_assoc in H. apply admits_snoc in H. by apply IH.
Qed.

Lemma textOnChange_accepts k attributes v :
  FieldAttributes.keyfilter attributes = Some (className k) ->
  textOnChange attributes v = Invoked v <-> admits k (list_ascii_of_string v).
Proof.
  intros Hk. rewrite (textOnChange_class k attributes v Hk).
  rewrite <- classPattern_admits, <- RegexFacts.test_spec.
  destruct (test (classPattern k) v); split; intros H; congruence.
Qed.

(** *** Inclusions between the classes *)

Lemma allOf_impl (p q : ascii -> bool) w :
  (forall c, p c = true -> q c = true) -> allOf p w -> allOf q w.
Proof. intros Hpq H. unfold allOf in *. eapply Forall_impl; [exact H | exact Hpq]. Qed.

Lemma digit_hex c : isDigit c = true -> isHex c = true.
Proof. unfold isHex. by intros ->. Qed.

Lemma letter_alnum c : isLetter c = true -> isAlnum c = true.
Proof. unfold isAlnum. by intros ->. Qed.

Lemma hex_alnum c : isHex c = true -> isAlnum c = true.
Proof.
  destruct c as [b0 b1 b2 b3 b4 b5 b6 b7].
  destruct b0, b1, b2, b3, b4, b5, b6, b7; vm_compute; intros H;
    first [discriminate H | reflexivity].
Qed.

Lemma pint_int w : admits KPint w -> admits KInt w.
Proof. simpl. intros H. exists [], w. by repeat split; auto using optional_nil. Qed.

Lemma int_money w : admits KInt w -> admits KMoney w.
Proof.
  simpl. intros (sg & ds & -> & Hsg & Hds).
  exists sg, ds, [], []. rewrite !app_nil_r.
  repeat split; auto using allOf_nil, optional_nil.
Qed.

Lemma money_num w : admits KMoney w -> admits KNum w.
Proof.
  simpl. intros (sg & i & pt & fr & -> & Hsg & Hi & Hpt & Hfr & _).
  by exists sg, i, pt, fr.
Qed.

Lemma pint_pnum w : admits KPint w -> admits KPnum w.
Proof.
  simpl. intros H. exists w, [], []. rewrite !app_nil_r.
  repeat split; auto using allOf_nil, optional_nil.
Qed.

Lemma pnum_num w : admits KPnum w -> admits KNum w.
Proof.
  simpl. intros (i & pt & fr & -> & Hi & Hpt & Hfr).
  exists [], i, pt, fr. repeat split; auto using optional_nil.
Qed.


(** *** More inclusions between the classes *)

Lemma pint_hex w : admits KPint w -> admits KHex w.
Proof. apply allOf_impl, digit_hex. Qed.

Lemma hex_alphanum w : admits KHex w -> admits KAlphanum w.
Proof. apply allOf_impl, hex_alnum. Qed.

Lemma alpha_alphanum w : admits KAlpha w -> admits KAlphanum w.
Proof. apply allOf_impl, letter_alnum. Qed.

End KeyClassFacts.

Module TextAreaFacts.
Import JsString Regex KeyFilter KeyFilterFacts TextArea.

Lemma textarea_agrees k attributes v :
  FieldAttributes.keyfilter attributes = Some (className k) ->
  filtered k = true ->
  textareaOnChange attributes v = textOnChange attributes v.
Proof.
  intros Hk Hf. unfold textareaOnChange, textOnChange. rewrite Hk.
  destruct k; try discriminate Hf; reflexivity.
Qed.

Lemma textarea_forwards k attributes v :
  FieldAttributes.keyfilter attributes = Some (className k) ->
  filtered k = false ->
  textareaOnChange attributes v = Invoked v.
Proof.
  intros Hk Hf. unfold textareaOnChange. rewrite Hk.
  destruct k; try discriminate Hf; reflexivity.
Qed.

End TextAreaFacts.

(* ===================================================================== *)
(** ** The masked input *)
(* ===================================================================== *)

Module MaskSpecFacts.
Import JsString Mask MaskSpec.

Lemma append_cons x (a b : string) : String x a ++ b = String x (a ++ b).
Proof. reflexivity. Qed.

Lemma append_assoc (a b c : string) : (a ++ b) ++ c = a ++ (b ++ c).
Proof. induction a as [|x a IH]; [done|]. by rewrite !append_cons, IH. Qed.

Lemma append_nil_r (a : string) : a ++ EmptyString = a.
Proof. induction a as [|x a IH]; [done|]. by rewrite append_cons, IH. Qed.

Lemma length_append (a b : string) :
  String.length (a ++ b) = (String.length a + String.length b)%nat.
Proof. induction a as [|x a IH]; [done|]. rewrite append_cons. simpl. by rewrite IH. Qed.

(** *** Indices and suffixes *)

Lemma charAt_dropStr s : forall n,
  charAt s n = match dropStr n s with
               | String c _ => Some c
               | EmptyString => None
               end.
Proof.
  unfold charAt. induction s as [|c s IH]; intros [|n]; simpl; done.
Qed.

Lemma dropStr_next s : forall n c rest,
  dropStr n s = String c rest -> dropStr (S n) s = rest.
Proof.
  induction s as [|x s IH]; intros [|n] c rest H; simpl in *; try done.
  - by injection H as _ ->.
  - by apply IH in H.
Qed.

(** *** The loops as recursions *)

Lemma fold_applyFrom value slotChar mask : forall out vi,
  maskedValue (fold_left (applyMaskStep value slotChar) mask (mkMaskState out vi))
  = out ++ applyFrom mask slotChar (dropStr vi value).
Proof.
  induction mask as [|m mask IH]; intros out vi; simpl.
  - by rewrite append_nil_r.
  - unfold applyMaskStep at 2. cbn [maskedValue valueIndex].
    rewrite charAt_dropStr.
    destruct (dropStr vi value) as [|v rest] eqn:Hdrop.
    + destruct (isSlot m); rewrite IH, Hdrop, append_assoc; reflexivity.
    + pose proof (dropStr_next value vi v rest Hdrop) as Hnext.
      destruct (Ascii.eqb m "9").
      { destruct (isDigit v); rewrite IH, ?Hdrop, ?Hnext, append_assoc; reflexivity. }
      destruct (Ascii.eqb m "a").
      { destruct (isLetter v); rewrite IH, ?Hdrop, ?Hnext, append_assoc; reflexivity. }
      destruct (Ascii.eqb m "*").
      { rewrite IH, ?Hdrop, ?Hnext, append_assoc; reflexivity. }
      destruct (Ascii.eqb v m); rewrite IH, ?Hdrop, ?Hnext, append_assoc; reflexivity.
Qed.

(** [applyMask] on a non-empty mask and value. *)
Lemma applyMask_applyFrom value mask slotChar :
  nonEmpty mask = true -> nonEmpty value = true ->
  applyMask value mask slotChar
  = applyFrom (list_ascii_of_string mask) slotChar value.
Proof.
  intros Hm Hv. unfold applyMask. rewrite Hm, Hv. simpl.
  by rewrite fold_applyFrom.
Qed.

Lemma keepsChar_dropStr mask i v :
  keepsChar mask i v = match dropStr i mask with
                       | String m _ => keeps m v
                       | EmptyString => false
                       end.
Proof.
  unfold keepsChar. rewrite charAt_dropStr. by destruct (dropStr i mask).
Qed.

Lemma dropStr_end s : forall n, dropStr n s = EmptyString -> dropStr (S n) s = EmptyString.
Proof.
  induction s as [|x s IH]; intros [|n] H; simpl in *; try done.
  by apply IH.
Qed.

Lemma unmaskRest_no_mask value : unmaskRest EmptyString value = EmptyString.
Proof. induction value as [|v value IH]; [done|]. simpl. exact IH. Qed.

Lemma unmaskFrom_unmaskRest mask value : forall i,
  unmaskFrom mask i value = unmaskRest (dropStr i mask) value.
Proof.
  induction value as [|v value IH]; intros i; simpl.
  - by destruct (dropStr i mask).
  - rewrite keepsChar_dropStr, IH.
    destruct (dropStr i mask) as [|m rest] eqn:Hdrop.
    + rewrite (dropStr_end mask i Hdrop). by rewrite !unmaskRest_no_mask.
    + by rewrite (dropStr_next mask i m rest Hdrop).
Qed.

(** [unmaskValue] on a non-empty mask and value. *)
Lemma unmaskValue_unmaskRest value mask :
  nonEmpty mask = true -> nonEmpty value = true ->
  unmaskValue value mask = unmaskRest mask value.
Proof.
  intros Hm Hv. unfold unmaskValue. rewrite Hm, Hv. simpl.
  by rewrite unmaskFrom_unmaskRest.
Qed.

(** *** Character facts *)

Lemma digitMaskChar_cases m :
  digitMaskChar m = true ->
  m = "9"%char
  \/ (Ascii.eqb m "9" = false /\ Ascii.eqb m "a" = false
      /\ Ascii.eqb m "*" = false /\ isDigit m = false).
Proof.
  unfold digitMaskChar, isSlot. intros H.
  destruct (Ascii.eqb m "9") eqn:H9.
  - left. by apply Ascii.eqb_eq.
  - right. simpl in H. apply andb_true_iff in H as [Hs Hd].
    apply negb_true_iff in Hs, Hd.
    apply orb_false_iff in Hs as [Ha Hstar]. by repeat split.
Qed.

Lemma single_append c (a : string) : single c ++ a = String c a.
Proof. reflexivity. Qed.

Lemma digit_not_literal v m :
  isDigit v = true -> isDigit m = false -> Ascii.eqb v m = false.
Proof. intros Hv Hm. apply Ascii.eqb_neq. intros ->. congruence. Qed.

Lemma keeps_digit_slot v : keeps "9" v = isDigit v.
Proof. unfold keeps. by destruct (isDigit v). Qed.

Lemma keeps_literal m v :
  Ascii.eqb m "9" = false -> Ascii.eqb m "a" = false -> Ascii.eqb m "*" = false ->
  keeps m v = false.
Proof. unfold keeps. by intros -> -> ->. Qed.

Lemma accepts_literal m :
  Ascii.eqb m "9" = false -> Ascii.eqb m "a" = false -> Ascii.eqb m "*" = false ->
  accepts m m = true.
Proof. unfold accepts. intros -> -> ->. apply Ascii.eqb_refl. Qed.

(** *** The output of the mask *)

(** With a one-character slot character the output is as long as the
    mask. *)
Lemma applyFrom_length slotChar mask : forall rest,
  String.length slotChar = 1%nat ->
  String.length (applyFrom mask slotChar rest) = List.length mask.
Proof.
  induction mask as [|m mask IH]; intros rest Hslot; [done|].
  cbn [applyFrom List.length].
  destruct rest as [|v rest].
  - rewrite length_append, IH by done.
    destruct (isSlot m); [by rewrite Hslot | done].
  - destruct (Ascii.eqb m "9").
    { destruct (isDigit v); [simpl; by rewrite IH|].
      by rewrite length_append, IH, Hslot. }
    destruct (Ascii.eqb m "a").
    { destruct (isLetter v); [simpl; by rewrite IH|].
      by rewrite length_append, IH, Hslot. }
    destruct (Ascii.eqb m "*"); simpl; by rewrite IH.
Qed.

Lemma length_list_ascii s : List.length (list_ascii_of_string s) = String.length s.
Proof. induction s as [|c s IH]; [done|]. simpl. by rewrite IH. Qed.

(** A value that conforms to the mask comes out unchanged. *)
Lemma applyFrom_conforms slotChar mask : forall value,
  conforms mask value = true ->
  applyFrom (list_ascii_of_string mask) slotChar value = value.
Proof.
  induction mask as [|m mask IH]; intros [|v value] H;
    cbn [conforms] in H; try discriminate H; [done|].
  apply andb_true_iff in H as [Hacc Hrest].
  cbn [list_ascii_of_string applyFrom]. unfold accepts in Hacc.
  destruct (Ascii.eqb m "9"); [by rewrite Hacc, IH|].
  destruct (Ascii.eqb m "a"); [by rewrite Hacc, IH|].
  destruct (Ascii.eqb m "*"); [by rewrite IH|].
  rewrite Hacc. apply Ascii.eqb_eq in Hacc as ->. by rewrite IH.
Qed.

(** Digits typed through a digit mask: unmasking the output gives back the
    digits that found a slot. *)
Lemma unmask_apply_digits s mask : forall rest,
  isDigit s = false ->
  digitMask mask = true -> allChars isDigit rest = true ->
  unmaskRest mask (applyFrom (list_ascii_of_string mask) (single s) rest)
  = takeStr (digitSlots mask) rest.
Proof.
  unfold digitMask.
  induction mask as [|m mask IH]; intros rest Hs Hmask Hrest.
  { by destruct rest. }
  cbn [allChars] in Hmask. apply andb_true_iff in Hmask as [Hm Hmask].
  cbn [list_ascii_of_string applyFrom digitSlots].
  destruct (digitMaskChar_cases m Hm) as [->|(H9 & Ha & Hstar & Hd)].
  - change (Ascii.eqb "9" "9") with true. change (isSlot "9") with true. cbv iota.
    destruct rest as [|v rest].
    + rewrite single_append. cbn [unmaskRest takeStr].
      rewrite keeps_digit_slot, Hs. rewrite IH by done. by destruct (digitSlots mask).
    + cbn [allChars] in Hrest. apply andb_true_iff in Hrest as [Hv Hrest].
      rewrite Hv. cbn [unmaskRest takeStr].
      rewrite keeps_digit_slot, Hv. by rewrite IH.
  - rewrite H9.
    assert (Hslot : isSlot m = false) by (unfold isSlot; by rewrite H9, Ha, Hstar).
    destruct rest as [|v rest].
    + rewrite Hslot, single_append.
      cbn [unmaskRest]. rewrite keeps_literal by done. by rewrite IH.
    + rewrite Ha, Hstar.
      pose proof Hrest as Hrest'.
      cbn [allChars] in Hrest'. apply andb_true_iff in Hrest' as [Hv _].
      rewrite (digit_not_literal v m Hv Hd).
      cbn [unmaskRest]. rewrite keeps_literal by done. by rewrite IH.
Qed.


Lemma takeStr_all s : forall n, (String.length s <= n)%nat -> takeStr n s = s.
Proof.
  induction s as [|c s IH]; intros [|n] H; simpl in *; try reflexivity; try lia.
  rewrite IH by lia. reflexivity.
Qed.


(** *** Masking again *)

Lemma includesChar_cons s m mask :
  JsText.includesChar s (String m mask) = false ->
  Ascii.eqb s m = false /\ JsText.includesChar s mask = false.
Proof.
  unfold JsText.includesChar. cbn [anyChar]. intros H.
  by apply orb_false_iff in H.
Qed.

(** A value stalled on the slot character reads as an exhausted one. *)
Lemma applyFrom_stalled s mask : forall rest,
  isDigit s = false ->
  digitMask mask = true -> JsText.includesChar s mask = false ->
  applyFrom (list_ascii_of_string mask) (single s) (String s rest)
  = applyFrom (list_ascii_of_string mask) (single s) EmptyString.
Proof.
  unfold digitMask.
  induction mask as [|m mask IH]; intros rest Hs Hmask Hfree; [done|].
  cbn [allChars] in Hmask. apply andb_true_iff in Hmask as [Hm Hmask].
  apply includesChar_cons in Hfree as [Hsm Hfree].
  cbn [list_ascii_of_string applyFrom].
  destruct (digitMaskChar_cases m Hm) as [->|(H9 & Ha & Hstar & Hd)].
  - change (Ascii.eqb "9" "9") with true. change (isSlot "9") with true. cbv iota.
    rewrite Hs. by rewrite IH.
  - assert (Hslot : isSlot m = false) by (unfold isSlot; by rewrite H9, Ha, Hstar).
    rewrite H9, Ha, Hstar, Hsm, Hslot, single_append. by rewrite IH.
Qed.

Lemma applyFrom_idempotent s mask : forall rest,
  isDigit s = false ->
  digitMask mask = true -> JsText.includesChar s mask = false ->
  allChars isDigit rest = true ->
  applyFrom (list_ascii_of_string mask) (single s)
            (applyFrom (list_ascii_of_string mask) (single s) rest)
  = applyFrom (list_ascii_of_string mask) (single s) rest.
Proof.
  unfold digitMask.
  induction mask as [|m mask IH]; intros rest Hs Hmask Hfree Hrest; [done|].
  pose proof (applyFrom_stalled s mask) as Hstall.
  cbn [allChars] in Hmask. apply andb_true_iff in Hmask as [Hm Hmask].
  apply includesChar_cons in Hfree as [Hsm Hfree].
  unfold digitMask in Hstall.
  cbn [list_ascii_of_string].
  destruct (digitMaskChar_cases m Hm) as [->|(H9 & Ha & Hstar & Hd)].
  - destruct rest as [|v rest].
    + cbn [applyFrom]. change (isSlot "9") with true. cbv iota.
      rewrite single_append. cbn [applyFrom].
      change (Ascii.eqb "9" "9") with true. cbv iota.
      rewrite Hs, single_append. by rewrite Hstall.
    + cbn [allChars] in Hrest. apply andb_true_iff in Hrest as [Hv Hrest].
      cbn [applyFrom]. change (Ascii.eqb "9" "9") with true. cbv iota.
      rewrite Hv. cbn [applyFrom]. change (Ascii.eqb "9" "9") with true. cbv iota.
      rewrite Hv. by rewrite IH.
  - assert (Hslot : isSlot m = false) by (unfold isSlot; by rewrite H9, Ha, Hstar).
    destruct rest as [|v rest].
    + cbn [applyFrom]. rewrite Hslot, single_append. cbn [applyFrom].
      rewrite H9, Ha, Hstar, Ascii.eqb_refl. by rewrite IH.
    + pose proof Hrest as Hrest'.
      cbn [allChars] in Hrest'. apply andb_true_iff in Hrest' as [Hv _].
      cbn [applyFrom]. rewrite H9, Ha, Hstar, (digit_not_literal v m Hv Hd).
      cbn [applyFrom]. rewrite ?H9, ?Ha, ?Hstar, Ascii.eqb_refl. by rewrite IH.
Qed.

End MaskSpecFacts.

Module MaskBlurFacts.
Import JsString Mask MaskSpec MaskSpecFacts MaskBlur MaskCountSpec.

Lemma isFilled_dropStr slotChar value i :
  isFilled slotChar value i = headFilled slotChar (dropStr i value).
Proof.
  unfold isFilled, headFilled. rewrite charAt_dropStr.
  by destruct (dropStr i value).
Qed.

Lemma dropStr_tail value : forall i, dropStr (S i) value = tailStr (dropStr i value).
Proof.
  induction value as [|c value IH]; intros [|i]; simpl; try done.
  apply IH.
Qed.

Lemma dropStr_tailStr value i : dropStr i (tailStr value) = dropStr (S i) value.
Proof. destruct value; [by destruct i | done]. Qed.

(** The loop's counters after the whole mask. *)
Lemma fold_count slotChar value mask : forall i r f,
  fold_left (countStep slotChar value) mask (mkCount i r f)
  = mkCount (i + List.length mask) (r + requiredOf mask)
            (f + filledOf slotChar mask (dropStr i value)).
Proof.
  induction mask as [|m mask IH]; intros i r f.
  - simpl. f_equal; lia.
  - cbn [fold_left List.length requiredOf filledOf].
    unfold countStep at 2. cbn [index requiredChars filledChars].
    rewrite isFilled_dropStr.
    destruct (isSlot m); cbn [andb].
    + destruct (headFilled slotChar (dropStr i value));
        rewrite IH, dropStr_tail; f_equal; lia.
    + rewrite IH, dropStr_tail; f_equal; lia.
Qed.

Lemma maskComplete_counts mask slotChar value :
  maskComplete mask slotChar value
  = (requiredOf (list_ascii_of_string mask)
     <=? filledOf slotChar (list_ascii_of_string mask) value)%nat.
Proof.
  unfold maskComplete. rewrite fold_count. cbn [filledChars requiredChars dropStr].
  rewrite !Nat.add_0_l, Nat.ltb_antisym. apply negb_involutive.
Qed.

Lemma filledOf_le slotChar mask : forall value,
  (filledOf slotChar mask value <= requiredOf mask)%nat.
Proof.
  induction mask as [|m mask IH]; intros value; [done|]. simpl.
  pose proof (IH (tailStr value)).
  destruct (isSlot m), (headFilled slotChar value); simpl; lia.
Qed.

(** All placeholders are counted as filled exactly when each placeholder
    position is filled. *)
Lemma filledOf_all slotChar mask : forall value,
  filledOf slotChar mask value = requiredOf mask
  <-> (forall i m, mask !! i = Some m -> isSlot m = true ->
         headFilled slotChar (dropStr i value) = true).
Proof.
  induction mask as [|m mask IH]; intros value.
  - split; [|done]. intros _ i m H. by destruct i.
  - cbn [filledOf requiredOf].
    pose proof (filledOf_le slotChar mask (tailStr value)) as Hle.
    split.
    + intros H i m' Hi Hslot.
      destruct i as [|i]; simpl in Hi.
      * injection Hi as ->. rewrite Hslot in H. simpl in *.
        destruct (headFilled slotChar value); [done | lia].
      * assert (Hrest : filledOf slotChar mask (tailStr value) = requiredOf mask).
        { destruct (isSlot m), (headFilled slotChar value); simpl in H; lia. }
        rewrite <- dropStr_tailStr.
        by apply (proj1 (IH (tailStr value)) Hrest i m').
    + intros H.
      assert (Hrest : filledOf slotChar mask (tailStr value) = requiredOf mask).
      { apply IH. intros i m' Hi Hslot. rewrite dropStr_tailStr.
        by apply (H (S i) m'). }
      destruct (isSlot m) eqn:Hslot; simpl; [|done].
      pose proof (H 0%nat m eq_refl Hslot) as H0. cbn [dropStr] in H0.
      by rewrite H0, Hrest.
Qed.

Lemma lookup_list_ascii mask i :
  list_ascii_of_string mask !! i = charAt mask i.
Proof.
  unfold charAt. revert i. induction mask as [|c mask IH]; intros [|i]; simpl; done.
Qed.

(** *** Digits typed through a digit mask *)

Lemma single_eqb a b : String.eqb (single a) (single b) = Ascii.eqb a b.
Proof. unfold single. cbn [String.eqb]. by destruct (Ascii.eqb a b). Qed.

Lemma requiredOf_digitMask mask :
  digitMask mask = true -> requiredOf (list_ascii_of_string mask) = digitSlots mask.
Proof.
  unfold digitMask. induction mask as [|m mask IH]; [done|].
  cbn [allChars list_ascii_of_string requiredOf digitSlots]. intros H.
  apply andb_true_iff in H as [Hm Hmask].
  destruct (digitMaskChar_cases m Hm) as [->|(H9 & Ha & Hstar & Hd)].
  - change (isSlot "9") with true. change (Ascii.eqb "9" "9") with true.
    cbv iota. by rewrite IH.
  - unfold isSlot. rewrite H9, Ha, Hstar. simpl. by apply IH.
Qed.

Lemma filledOf_digits s mask : forall rest,
  isDigit s = false ->
  digitMask mask = true -> allChars isDigit rest = true ->
  filledOf (Some (single s)) (list_ascii_of_string mask)
           (applyFrom (list_ascii_of_string mask) (single s) rest)
  = Nat.min (digitSlots mask) (String.length rest).
Proof.
  unfold digitMask.
  induction mask as [|m mask IH]; intros rest Hs Hmask Hrest; [done|].
  cbn [allChars] in Hmask. apply andb_true_iff in Hmask as [Hm Hmask].
  cbn [list_ascii_of_string applyFrom filledOf digitSlots].
  destruct (digitMaskChar_cases m Hm) as [->|(H9 & Ha & Hstar & Hd)].
  - change (Ascii.eqb "9" "9") with true. change (isSlot "9") with true. cbv iota.
    destruct rest as [|v rest].
    + rewrite single_append. cbn [headFilled tailStr andb].
      rewrite single_eqb, Ascii.eqb_refl. cbn [negb].
      rewrite IH by done. simpl. by rewrite !Nat.min_0_r.
    + cbn [allChars] in Hrest. apply andb_true_iff in Hrest as [Hv Hrest].
      rewrite Hv. cbn [headFilled tailStr andb].
      rewrite single_eqb, (digit_not_literal v s Hv Hs). cbn [negb].
      rewrite IH by done. reflexivity.
  - rewrite H9.
    assert (Hslot : isSlot m = false) by (unfold isSlot; by rewrite H9, Ha, Hstar).
    rewrite Hslot. cbn [andb].
    destruct rest as [|v rest].
    + rewrite single_append. cbn [tailStr]. by rewrite IH.
    + rewrite Ha, Hstar.
      pose proof Hrest as Hrest'.
      cbn [allChars] in Hrest'. apply andb_true_iff in Hrest' as [Hv _].
      rewrite (digit_not_literal v m Hv Hd). cbn [tailStr]. by rewrite IH.
Qed.

Lemma maskComplete_digits s mask raw :
  isDigit s = false ->
  digitMask mask = true -> allChars isDigit raw = true ->
  nonEmpty mask = true -> nonEmpty raw = true ->
  maskComplete mask (Some (single s)) (applyMask raw mask (single s))
  = (digitSlots mask <=? String.length raw)%nat.
Proof.
  intros Hs Hmask Hraw Hm Hr.
  rewrite maskComplete_counts, applyMask_applyFrom by done.
  rewrite requiredOf_digitMask, filledOf_digits by done.
  destruct (Nat.leb_spec (digitSlots mask) (String.length raw)) as [Hle|Hlt].
  - apply Nat.leb_le. lia.
  - apply Nat.leb_gt. lia.
Qed.

Lemma applyMask_nonEmpty value mask slotChar :
  String.length slotChar = 1%nat ->
  nonEmpty mask = true -> nonEmpty value = true ->
  nonEmpty (applyMask value mask slotChar) = true.
Proof.
  intros Hs Hm Hv.
  pose proof (applyFrom_length slotChar (list_ascii_of_string mask) value Hs) as Hlen.
  rewrite <- applyMask_applyFrom in Hlen by done.
  rewrite length_list_ascii in Hlen.
  destruct mask; [done|]. by destruct (applyMask value _ slotChar).
Qed.


(** *** No slot character configured *)

Lemma filledOf_unset mask : forall value,
  (List.length mask <= String.length value)%nat ->
  filledOf None mask value = requiredOf mask.
Proof.
  induction mask as [|m mask IH]; intros value H; [done|].
  destruct value as [|v value]; [simpl in H; lia|].
  cbn [filledOf requiredOf headFilled tailStr]. rewrite andb_true_r.
  rewrite IH by (simpl in H; lia). reflexivity.
Qed.

Lemma maskComplete_unset mask raw slotChar :
  String.length slotChar = 1%nat ->
  nonEmpty mask = true -> nonEmpty raw = true ->
  maskComplete mask None (applyMask raw mask slotChar) = true.
Proof.
  intros Hs Hm Hr.
  rewrite maskComplete_counts, applyMask_applyFrom by done.
  rewrite filledOf_unset; [apply Nat.leb_refl|].
  by rewrite applyFrom_length.
Qed.

End MaskBlurFacts.

(* ===================================================================== *)
(** ** Password strength: order *)
(* ===================================================================== *)

Module PasswordOrderFacts.
Import JsString Password PasswordOrder.

Lemma anyChar_app p (s t : string) : anyChar p (s ++ t) = anyChar p s || anyChar p t.
Proof.
  induction s as [|c s IH]; [reflexivity|].
  rewrite MaskSpecFacts.append_cons. cbn [anyChar]. by rewrite IH, orb_assoc.
Qed.

Lemma satisfied_sum password :
  satisfied password
  = (count (8 <=? String.length password)%nat
     + count (12 <=? String.length password)%nat
     + count (anyChar isUpper password) + count (anyChar isLower password)
     + count (anyChar isDigit password) + count (anyChar isSpecial password))%nat.
Proof.
  unfold satisfied, criteria.
  destruct (8 <=? _)%nat, (12 <=? _)%nat,
    (anyChar isUpper _), (anyChar isLower _), (anyChar isDigit _),
    (anyChar isSpecial _); reflexivity.
Qed.

Lemma count_le (a b : bool) : (a = true -> b = true) -> (count a <= count b)%nat.
Proof. destruct a, b; simpl; intros H; first [lia | discriminate (H eq_refl)]. Qed.

Lemma satisfied_append p q : (satisfied p <= satisfied (p ++ q))%nat.
Proof.
  rewrite !satisfied_sum.
  assert (Hlen : (String.length p <= String.length (p ++ q))%nat)
    by (rewrite MaskSpecFacts.length_append; lia).
  assert (H8 := count_le (8 <=? String.length p)%nat (8 <=? String.length (p ++ q))%nat).
  assert (H12 := count_le (12 <=? String.length p)%nat (12 <=? String.length (p ++ q))%nat).
  assert (Hu := count_le (anyChar isUpper p) (anyChar isUpper (p ++ q))).
  assert (Hl := count_le (anyChar isLower p) (anyChar isLower (p ++ q))).
  assert (Hd := count_le (anyChar isDigit p) (anyChar isDigit (p ++ q))).
  assert (Hs := count_le (anyChar isSpecial p) (anyChar isSpecial (p ++ q))).
  rewrite !anyChar_app in *.
  specialize (H8 ltac:(intros H; apply Nat.leb_le in H; apply Nat.leb_le; lia)).
  specialize (H12 ltac:(intros H; apply Nat.leb_le in H; apply Nat.leb_le; lia)).
  specialize (Hu ltac:(intros ->; reflexivity)).
  specialize (Hl ltac:(intros ->; reflexivity)).
  specialize (Hd ltac:(intros ->; reflexivity)).
  specialize (Hs ltac:(intros ->; reflexivity)).
  lia.
Qed.

Lemma classify_monotone n m :
  (n <= m)%nat -> (rank (classify n) <= rank (classify m))%nat.
Proof.
  intros H. unfold classify.
  destruct (Nat.ltb_spec n 3), (Nat.ltb_spec n 5), (Nat.ltb_spec m 3), (Nat.ltb_spec m 5);
    simpl; lia.
Qed.

Lemma satisfied_short password :
  (String.length password < 8)%nat -> (satisfied password <= 4)%nat.
Proof.
  intros H. rewrite satisfied_sum.
  assert (H8 : (8 <=? String.length password)%nat = false) by (apply Nat.leb_gt; lia).
  assert (H12 : (12 <=? String.length password)%nat = false) by (apply Nat.leb_gt; lia).
  rewrite H8, H12.
  destruct (anyChar isUpper _), (anyChar isLower _), (anyChar isDigit _),
    (anyChar isSpecial _); simpl; lia.
Qed.

End PasswordOrderFacts.

(* ===================================================================== *)
(** ** Field type options: icons *)
(* ===================================================================== *)

Module IconsFacts.
Import Registry Icons.

Lemma enumValue_injective k k' : enumValue k = enumValue k' -> k = k'.
Proof. destruct k, k'; simpl; intros H; first [reflexivity | discriminate H]. Qed.

Lemma iconMap_text k info :
  iconMap k = Some info -> iconText info <> "?".
Proof. destruct k; simpl; intros H; inversion H; subst; discriminate. Qed.

End IconsFacts.

(* ===================================================================== *)
(** ** The number input: bounds *)
(* ===================================================================== *)

Module NumberBoundsFacts.
Import JsString NumberInput.

Lemma lt_irrefl x : JsNum.lt x x = false.
Proof.
  unfold JsNum.lt, SFltb, SFcompare.
  destruct x as [s|s| |s m e]; [by destruct s | by destruct s | reflexivity |].
  destruct s; rewrite Z.compare_refl, Pos.compare_cont_refl; reflexivity.
Qed.

Lemma numberOnChange_within parseFloat attributes val r :
  boundsOrdered attributes ->
  numberOnChange parseFloat attributes val = Invoked (Some r) ->
  (forall lo, FieldAttributes.min attributes = Some lo -> JsNum.lt r lo = false)
  /\ (forall hi, FieldAttributes.max attributes = Some hi -> JsNum.gt r hi = false).
Proof.
  unfold boundsOrdered, numberOnChange. intros Hord H.
  destruct (nonEmpty val); [|discriminate].
  destruct (FieldAttributes.min attributes) as [lo|],
           (FieldAttributes.max attributes) as [hi|].
  - destruct (JsNum.lt (parseFloat val) lo) eqn:Hlo.
    + rewrite Hord in H. inversion H; subst r.
      split; intros x Hx; inversion Hx; subst x; [apply lt_irrefl | exact Hord].
    + destruct (JsNum.gt (parseFloat val) hi) eqn:Hhi; inversion H; subst r.
      * split; intros x Hx; inversion Hx; subst x; [exact Hord | apply lt_irrefl].
      * split; intros x Hx; inversion Hx; subst x; assumption.
  - split; [|intros x Hx; discriminate Hx].
    intros x Hx; inversion Hx; subst x.
    destruct (JsNum.lt (parseFloat val) lo) eqn:Hlo; inversion H; subst r;
      [apply lt_irrefl | assumption].
  - split; [intros x Hx; discriminate Hx|].
    intros x Hx; inversion Hx; subst x.
    destruct (JsNum.gt (parseFloat val) hi) eqn:Hhi; inversion H; subst r;
      [apply lt_irrefl | assumption].
  - split; intros x Hx; discriminate Hx.
Qed.

End NumberBoundsFacts.

(* ===================================================================== *)
(** ** The collection editor *)
(* ===================================================================== *)

Module CollectionFacts.

Lemma sameId_eq a b : Collection.sameId a b = true <-> a = b.
Proof.
  destruct a as [x|], b as [y|]; simpl; try (split; [discriminate|congruence]).
  - rewrite String.eqb_eq. split; congruence.
  - done.
Qed.

Lemma sameId_refl a : Collection.sameId a a = true.
Proof. by apply sameId_eq. Qed.

Lemma map_fixed {A : Type} (f : A -> A) (l : list A) :
  (forall x, In x l -> f x = x) -> List.map f l = l.
Proof.
  induction l as [|x l IH]; intros H; [done|]. simpl.
  rewrite H by (by left). rewrite IH; [done|]. intros y Hy. apply H. by right.
Qed.

Lemma tempId_truthy now : truthyString (Some ("temp-" ++ now)) = true.
Proof. reflexivity. Qed.

End CollectionFacts.

(* ===================================================================== *)
(** ** The media input *)
(* ===================================================================== *)

Module MediaFacts.
Import Media.

Lemma filter_andb {A : Type} (p q : A -> bool) (l : list A) :
  List.filter (fun x => p x && q x) l = List.filter q (List.filter p l).
Proof.
  induction l as [|x l IH]; [done|]. simpl.
  destruct (p x); simpl; [destruct (q x)|]; by rewrite IH.
Qed.

Lemma sizeAllowed_unset attributes file :
  truthyNumber (minFileSize attributes) = false ->
  truthyNumber (maxFileSize attributes) = false ->
  sizeAllowed attributes file = true.
Proof. unfold sizeAllowed. by intros -> ->. Qed.

Lemma filter_true {A : Type} (p : A -> bool) (l : list A) :
  (forall x, p x = true) -> List.filter p l = l.
Proof.
  intros H. induction l as [|x l IH]; [done|]. simpl. by rewrite H, IH.
Qed.

(** The two guarded passes of the handler keep the admissible files. *)
Lemma validFiles_admissible attributes files :
  (let validFiles :=
     if truthyString (accept attributes) then
       match accept attributes with
       | Some accepted =>
           List.filter
             (fun file => List.existsb (matchesType file) (acceptTypes accepted))
             files
       | None => files
       end
     else files in
   if truthyNumber (minFileSize attributes) || truthyNumber (maxFileSize attributes)
   then List.filter (sizeAllowed attributes) validFiles
   else validFiles)
  = List.filter (admissible attributes) files.
Proof.
  unfold admissible. rewrite filter_andb. cbv zeta.
  assert (Htype :
    (if truthyString (accept attributes) then
       match accept attributes with
       | Some accepted =>
           List.filter
             (fun file => List.existsb (matchesType file) (acceptTypes accepted))
             files
       | None => files
       end
     else files) = List.filter (typeAllowed attributes) files).
  { unfold typeAllowed, truthyString.
    destruct (accept attributes) as [accepted|].
    - destruct (JsString.nonEmpty accepted); [done|]. by rewrite filter_true.
    - by rewrite filter_true. }
  rewrite Htype.
  destruct (truthyNumber (minFileSize attributes)) eqn:Hmin; [done|].
  destruct (truthyNumber (maxFileSize attributes)) eqn:Hmax; [done|].
  simpl. rewrite (filter_true (sizeAllowed attributes)); [done|].
  intros file. by apply sizeAllowed_unset.
Qed.

End MediaFacts.

(* ===================================================================== *)
(** ** The default fill: saved values *)
(* ===================================================================== *)

Module DefaultFillFacts.
Import Config.

Lemma fill_orDefault type attributes validations key d :
  In (OrDefault key d) (attributeDefaults type) ->
  fst (defaultFill type attributes validations) !! key
  = Some (Js.or (getProp (orEmpty attributes) key) d).
Proof.
  intros Hin. unfold defaultFill. simpl.
  apply FillFacts.run_orDefault; [apply ConfigFacts.attributeDefaults_distinct | exact Hin].
Qed.

Lemma fill_orDefault_truthy type attributes validations key d :
  In (OrDefault key d) (attributeDefaults type) ->
  Js.truthy d = true ->
  Js.truthy (getProp (fst (defaultFill type attributes validations)) key) = true.
Proof.
  intros Hin Hd. unfold getProp at 1.
  rewrite (fill_orDefault type attributes validations key d Hin). simpl.
  unfold Js.or.
  destruct (Js.truthy (getProp (orEmpty attributes) key)) eqn:Hv; [exact Hv | exact Hd].
Qed.

End DefaultFillFacts.

(* ********************************************************************* *)
(** * Part III: the claims of the specification *)
(* ********************************************************************* *)

(** C1. Mask round trip: with the pattern 999-999-9999 and the default slot
    character, applyMask maps the raw input 5551234567 to 555-123-4567, and
    unmaskValue maps that result, against the same pattern, back to
    5551234567. *)
Theorem mask_round_trip_phone :
  Mask.applyMask "5551234567" "999-999-9999" Mask.defaultSlotChar = "555-123-4567"
  /\ Mask.unmaskValue "555-123-4567" "999-999-9999" = "5551234567".
Proof. split; vm_compute; reflexivity. Qed.

(** C2. The save-time default fill is idempotent: for every field kind and
    any attributes and validations (absent or not), filling the defaults into
    the result of a first fill yields exactly the attributes and validations
    objects of the first fill. *)
Theorem default_fill_idempotent :
  forall (type : FieldTypeEnum) (attributes validations : option (gmap string JsValue)),
    Config.defaultFill type
      (Some (fst (Config.defaultFill type attributes validations)))
      (Some (snd (Config.defaultFill type attributes validations)))
    = Config.defaultFill type attributes validations.
Proof. intros. apply ConfigFacts.defaultFill_idempotent. Qed.

Example default_fill_new_text_field :
  Config.getProp (fst (Config.defaultFill TEXT None None)) "variant" = JStr "outlined"
  /\ Config.getProp (fst (Config.defaultFill TEXT None None)) "floatLabel" = JBool true
  /\ Config.getProp (fst (Config.defaultFill TEXT None None)) "placeholder"
       = JStr "Enter text..."
  /\ snd (Config.defaultFill TEXT None None) !! "minLength" = Some JUndefined.
Proof. vm_compute. repeat split. Qed.




Example default_fill_number_zero :
  fst (Config.defaultFill NUMBER (Some Sample.zeroBounds) None) !! "min"
    = Some JUndefined
  /\ fst (Config.defaultFill NUMBER (Some Sample.zeroBounds) None) !! "maxFractionDigits"
       = Some (Config.num 2).
Proof. vm_compute. split; reflexivity. Qed.

(** C4. apiId derivation on a name change: the name My Field! derives
    my_field. The second half of the claim, that a manually edited apiId
    survives a later name change, does not hold in a dialog for a new field:
    after the user types custom_id as API ID, changing the name to
    My Field! replaces it by my_field. *)
Theorem name_change_overwrites_edited_api_id :
  Dialog.deriveApiId "My Field!" = "my_field"
  /\ (forall name : string,
        JsString.allChars Dialog.isIdChar (Dialog.deriveApiId name) = true)
  /\ Dialog.apiId Sample.editedNewField = "custom_id"
  /\ Dialog.apiId (Dialog.handleNameChange None "My Field!" Sample.editedNewField)
       = "my_field".
Proof.
  split; [|split; [|split]].
  - vm_compute. reflexivity.
  - apply DialogFacts.deriveApiId_chars.
  - vm_compute. reflexivity.
  - vm_compute. reflexivity.
Qed.

(** C5. Key filter rejection: for a text field whose keyfilter attribute is
    int, an edit proposing a value that is not an optionally signed run of
    digits does not invoke onChange, so the field keeps its current value;
    an edit proposing such a value invokes onChange with it. The same holds
    for pint, num, pnum, money, hex, alpha and alphanum, each with the class
    of strings it admits. *)
Theorem keyfilter_rejects_or_forwards :
  forall (k : KeyFilter.KeyClass) (attributes : FieldAttributes.t)
         (v v' : string),
    FieldAttributes.keyfilter attributes = Some (KeyFilter.className k) ->
    (~ KeyFilter.admits k (list_ascii_of_string v') ->
       KeyFilter.textOnChange attributes v' = NotInvoked
       /\ valueAfter v (KeyFilter.textOnChange attributes v') = v)
    /\ (KeyFilter.admits k (list_ascii_of_string v') ->
       KeyFilter.textOnChange attributes v' = Invoked v').
Proof.
  intros k attributes v v' Hk.
  rewrite (KeyFilterFacts.textOnChange_class k attributes v' Hk).
  split; intros H.
  - rewrite <- KeyFilterFacts.classPattern_admits, <- RegexFacts.test_false in H.
    by rewrite H.
  - rewrite <- KeyFilterFacts.classPattern_admits, <- RegexFacts.test_spec in H.
    by rewrite H.
Qed.

Lemma keyfilter_rejects_or_forwards_witness :
  KeyFilter.textOnChange Sample.intFilter "12a" = NotInvoked
  /\ valueAfter "12" (KeyFilter.textOnChange Sample.intFilter "12a") = "12"
  /\ KeyFilter.textOnChange Sample.intFilter "-12" = Invoked "-12".
Proof.
  destruct (keyfilter_rejects_or_forwards KeyFilter.KInt Sample.intFilter
              "12" "12a" eq_refl) as [Hreject _].
  destruct (keyfilter_rejects_or_forwards KeyFilter.KInt Sample.intFilter
              "12" "-12" eq_refl) as [_ Hforward].
  split; [|split].
  - apply Hreject.
    rewrite <- KeyFilterFacts.classPattern_admits, <- RegexFacts.matchesb_spec. vm_compute. discriminate.
  - apply Hreject.
    rewrite <- KeyFilterFacts.classPattern_admits, <- RegexFacts.matchesb_spec. vm_compute. discriminate.
  - apply Hforward.
    rewrite <- KeyFilterFacts.classPattern_admits, <- RegexFacts.matchesb_spec. vm_compute. reflexivity.
Defined.

(** C6. Blur-time validation of a short-text field. The handler evaluates
    minLength, maxLength and regex: a required text field with minLength 3
    is computed invalid on the value ab and valid on abc. It does not
    evaluate required: a required text field without other rules is computed
    valid on the empty value, which the textarea handler computes invalid. *)
Theorem text_blur_skips_required :
  forall regExpTest : string -> string -> option bool,
    Blur.isValid (Blur.textOnBlur regExpTest (Blur.textField Blur.requiredMin3) "ab") = false
    /\ Blur.isValid (Blur.textOnBlur regExpTest (Blur.textField Blur.requiredMin3) "abc") = true
    /\ Blur.isValid (Blur.textOnBlur regExpTest (Blur.textField Blur.requiredOnly) EmptyString) = true
    /\ Blur.isValid (Blur.textareaOnBlur (Blur.textField Blur.requiredOnly) EmptyString) = false.
Proof.
  intros regExpTest. repeat split; vm_compute; reflexivity.
Qed.

(** C7. Unrecognized field-kind fallback: for every string that is not the
    value of a member of FieldTypeEnum the mapping returns the short-text
    kind TEXT and emits one warning on the console; for the value of a
    member it returns that member and emits nothing. The mapping is a total
    function: it has a result on every string. *)
Theorem unknown_kind_falls_back_to_text :
  (forall name : string,
     (forall k, enumValue k <> name) ->
     Registry.mapFieldTypeNameToEnum name
       = (TEXT, [Registry.notFoundWarning name]))
  /\ (forall k : FieldTypeEnum,
        Registry.mapFieldTypeNameToEnum (enumValue k) = (k, [])).
Proof.
  split.
  - apply RegistryFacts.mapFieldTypeNameToEnum_unknown.
  - apply RegistryFacts.mapFieldTypeNameToEnum_member.
Qed.

Lemma unknown_kind_falls_back_to_text_witness :
  Registry.mapFieldTypeNameToEnum "geo_point"
    = (TEXT, [ConsoleWarn "Field type geo_point not found in FieldTypeEnum, defaulting to TEXT"]).
Proof.
  apply (proj1 unknown_kind_falls_back_to_text "geo_point").
  intros k; destruct k; discriminate.
Defined.

(** C8. Password strength: the estimate is the number of satisfied criteria
    among six (length at least 8, length at least 12, an uppercase letter, a
    lowercase letter, a digit, a special character), a score below 3 being
    weak, below 5 medium, and strong otherwise; abc is weak, Abcdef12 is
    medium or stronger, and Abcdef123!@#longenough is strong. *)
Theorem password_strength_score :
  (forall password : string,
     Password.getPasswordStrength password
       = Password.classify (Password.satisfied password)
     /\ (Password.satisfied password <= 6)%nat)
  /\ Password.getPasswordStrength "abc" = Password.weak
  /\ (Password.getPasswordStrength "Abcdef12" = Password.medium
      \/ Password.getPasswordStrength "Abcdef12" = Password.strong)
  /\ Password.getPasswordStrength "Abcdef123!@#longenough" = Password.strong.
Proof.
  split; [|split; [|split]].
  - intros password. split.
    + apply PasswordFacts.getPasswordStrength_classify.
    + apply PasswordFacts.satisfied_le_six.
  - vm_compute. reflexivity.
  - left. vm_compute. reflexivity.
  - vm_compute. reflexivity.
Qed.

(** C9. Visibility rule: for every field whose isVisible property is the
    boolean false, renderField returns null, whatever the type, the
    attributes and the current value are. *)
Theorem hidden_field_renders_nothing :
  forall (field : Field.t) (value : JsValue),
    Field.isVisible field = Some false ->
    Renderer.renderField field value = None.
Proof.
  intros field value H. unfold Renderer.renderField. by rewrite H.
Qed.

Lemma hidden_field_renders_nothing_witness :
  Renderer.renderField Sample.hiddenTitle (JStr "hello") = None.
Proof.
  apply hidden_field_renders_nothing. reflexivity.
Defined.

(** C10, as stated, fails when the configured bounds are crossed: with
    min 10 and max 5, typing 3 (below min) passes 5 to onChange, not 10. *)
Lemma number_input_crossed_bounds :
  JsNum.lt (NumberInput.parseDigits "3") (JsNum.ofZ 10) = true
  /\ NumberInput.numberOnChange NumberInput.parseDigits (NumberInput.bounds 10 5) "3"
       = Invoked (Some (JsNum.ofZ 5))
  /\ Invoked (Some (JsNum.ofZ 5)) <> Invoked (Some (JsNum.ofZ 10)).
Proof. vm_compute. repeat split. discriminate. Qed.

(** C10 (amended). Number-widget input clamping: a typed value whose parse
    is below attributes.min makes the widget call onChange(attributes.min)
    provided attributes.max is unset or attributes.min is not greater than
    attributes.max; a typed value whose parse is above attributes.max makes
    it call onChange(attributes.max); an empty input makes it call
    onChange(null). *)
Theorem number_input_clamps_to_bounds :
  forall (parseFloat : string -> JsNumber) (attributes : FieldAttributes.t),
    (forall (val : string) (lo : JsNumber),
       JsString.nonEmpty val = true ->
       FieldAttributes.min attributes = Some lo ->
       JsNum.lt (parseFloat val) lo = true ->
       NumberInput.boundsOrdered attributes ->
       NumberInput.numberOnChange parseFloat attributes val = Invoked (Some lo))
    /\ (forall (val : string) (hi : JsNumber),
          JsString.nonEmpty val = true ->
          FieldAttributes.max attributes = Some hi ->
          JsNum.gt (parseFloat val) hi = true ->
          NumberInput.numberOnChange parseFloat attributes val = Invoked (Some hi))
    /\ NumberInput.numberOnChange parseFloat attributes EmptyString = Invoked None.
Proof.
  intros parseFloat attributes. split; [|split].
  - intros val lo. apply NumberInputFacts.numberOnChange_below.
  - intros val hi. apply NumberInputFacts.numberOnChange_above.
  - apply NumberInputFacts.numberOnChange_empty.
Qed.

Lemma number_input_clamps_to_bounds_witness :
  NumberInput.numberOnChange NumberInput.parseDigits (NumberInput.bounds 10 100) "3"
    = Invoked (Some (JsNum.ofZ 10))
  /\ NumberInput.numberOnChange NumberInput.parseDigits (NumberInput.bounds 10 100) "250"
       = Invoked (Some (JsNum.ofZ 100))
  /\ NumberInput.numberOnChange NumberInput.parseDigits (NumberInput.bounds 10 100)
       EmptyString = Invoked None.
Proof.
  destruct (number_input_clamps_to_bounds NumberInput.parseDigits
              (NumberInput.bounds 10 100)) as (Hbelow & Habove & Hempty).
  split; [|split].
  - apply Hbelow.
    + reflexivity.
    + reflexivity.
    + vm_compute. reflexivity.
    + vm_compute. reflexivity.
  - apply Habove.
    + reflexivity.
    + reflexivity.
    + vm_compute. reflexivity.
  - exact Hempty.
Defined.

(* ********************************************************************* *)
(** * Part IV: further properties of the code *)
(* ********************************************************************* *)


(* ===================================================================== *)
(** ** The masked input *)
(* ===================================================================== *)

(** X1. Masking a non-empty value with a non-empty mask and a slot
    character of one character gives a string exactly as long as the mask,
    whatever was typed. *)
Theorem apply_mask_length :
  forall (value mask slotChar : string),
    JsString.nonEmpty mask = true -> JsString.nonEmpty value = true ->
    String.length slotChar = 1%nat ->
    String.length (Mask.applyMask value mask slotChar) = String.length mask.
Proof.
  intros value mask slotChar Hm Hv Hs.
  rewrite MaskSpecFacts.applyMask_applyFrom by done.
  rewrite MaskSpecFacts.applyFrom_length by done.
  apply MaskSpecFacts.length_list_ascii.
Qed.

Lemma apply_mask_length_witness :
  String.length (Mask.applyMask "12x" Examples.phoneMask "_")
  = String.length Examples.phoneMask.
Proof. apply apply_mask_length; reflexivity. Defined.

(** X2. A value that already satisfies the mask position by position (a
    digit under 9, a letter under a, anything under a star, the literal
    itself elsewhere, same length) is left unchanged by masking, for every slot
    character. *)
Theorem apply_mask_fixes_conforming :
  forall (value mask slotChar : string),
    MaskSpec.conforms mask value = true ->
    Mask.applyMask value mask slotChar = value.
Proof.
  intros value mask slotChar H.
  destruct mask as [|m mask], value as [|v value]; try done.
  rewrite MaskSpecFacts.applyMask_applyFrom by done.
  by apply MaskSpecFacts.applyFrom_conforms.
Qed.

Lemma apply_mask_fixes_conforming_witness :
  Mask.applyMask "555-123-4567" Examples.phoneMask "_" = "555-123-4567".
Proof. apply apply_mask_fixes_conforming. vm_compute. reflexivity. Defined.

(** X3. Round trip for digit masks (digit slots 9 and literals that are
    neither placeholders nor digits): masking a non-empty run of digits
    with a slot character that is not a digit and unmasking the result
    gives back the digits that fit the slots of the mask, so the run itself
    when it is not longer than the number of slots. *)
Theorem digit_mask_round_trip :
  forall (s : ascii) (mask raw : string),
    JsString.isDigit s = false ->
    MaskSpec.digitMask mask = true ->
    JsString.allChars JsString.isDigit raw = true ->
    JsString.nonEmpty mask = true -> JsString.nonEmpty raw = true ->
    Mask.unmaskValue (Mask.applyMask raw mask (Mask.single s)) mask
      = MaskSpec.takeStr (MaskSpec.digitSlots mask) raw
    /\ ((String.length raw <= MaskSpec.digitSlots mask)%nat ->
        Mask.unmaskValue (Mask.applyMask raw mask (Mask.single s)) mask = raw).
Proof.
  intros s mask raw Hs Hmask Hraw Hm Hr.
  assert (Heq : Mask.unmaskValue (Mask.applyMask raw mask (Mask.single s)) mask
                = MaskSpec.takeStr (MaskSpec.digitSlots mask) raw).
  { rewrite MaskSpecFacts.unmaskValue_unmaskRest;
      [|done|by apply MaskBlurFacts.applyMask_nonEmpty].
    rewrite MaskSpecFacts.applyMask_applyFrom by done.
    by apply MaskSpecFacts.unmask_apply_digits. }
  split; [exact Heq|].
  intros Hlen. rewrite Heq. by apply MaskSpecFacts.takeStr_all.
Qed.

Lemma digit_mask_round_trip_witness :
  Mask.unmaskValue (Mask.applyMask "5551" Examples.phoneMask (Mask.single "_"))
                   Examples.phoneMask = "5551".
Proof.
  apply (proj2 (digit_mask_round_trip "_" Examples.phoneMask "5551"
                  eq_refl eq_refl eq_refl eq_refl eq_refl)).
  vm_compute. lia.
Defined.

(** X29. Masking is idempotent on digit masks: with a slot character that
    is not a digit and does not occur in the mask, masking again the masked
    value of a non-empty run of digits, complete or not, gives the same
    masked value. *)
Theorem apply_mask_idempotent :
  forall (s : ascii) (mask raw : string),
    JsString.isDigit s = false ->
    MaskSpec.digitMask mask = true ->
    JsText.includesChar s mask = false ->
    JsString.allChars JsString.isDigit raw = true ->
    JsString.nonEmpty mask = true -> JsString.nonEmpty raw = true ->
    Mask.applyMask (Mask.applyMask raw mask (Mask.single s)) mask (Mask.single s)
    = Mask.applyMask raw mask (Mask.single s).
Proof.
  intros s mask raw Hs Hmask Hfree Hraw Hm Hr.
  rewrite (MaskSpecFacts.applyMask_applyFrom (Mask.applyMask raw mask (Mask.single s)));
    [|done|by apply MaskBlurFacts.applyMask_nonEmpty].
  rewrite MaskSpecFacts.applyMask_applyFrom by done.
  by apply MaskSpecFacts.applyFrom_idempotent.
Qed.

Lemma apply_mask_idempotent_witness :
  Mask.applyMask (Mask.applyMask "5551" Examples.phoneMask (Mask.single "_"))
                 Examples.phoneMask (Mask.single "_")
  = Mask.applyMask "5551" Examples.phoneMask (Mask.single "_").
Proof. apply apply_mask_idempotent; reflexivity. Defined.

(** X4. The completeness check of the blur handler passes exactly when
    every placeholder position of the validation mask (a 9, an a or a star) exists in
    the value and holds something else than the configured slot
    character. *)
Theorem mask_complete_positions :
  forall (mask : string) (slotChar : option string) (value : string),
    MaskBlur.maskComplete mask slotChar value = true
    <-> (forall (i : nat) (m : ascii),
           JsString.charAt mask i = Some m -> Mask.isSlot m = true ->
           MaskBlur.isFilled slotChar value i = true).
Proof.
  intros mask slotChar value.
  rewrite MaskBlurFacts.maskComplete_counts, Nat.leb_le.
  pose proof (MaskBlurFacts.filledOf_le slotChar (list_ascii_of_string mask) value) as Hle.
  split.
  - intros H i m Hi Hslot.
    rewrite MaskBlurFacts.isFilled_dropStr.
    apply (proj1 (MaskBlurFacts.filledOf_all slotChar (list_ascii_of_string mask) value)
                 ltac:(lia) i m); [|done].
    by rewrite MaskBlurFacts.lookup_list_ascii.
  - intros H.
    assert (Hall : MaskCountSpec.filledOf slotChar (list_ascii_of_string mask) value
                   = MaskCountSpec.requiredOf (list_ascii_of_string mask)); [|lia].
    apply MaskBlurFacts.filledOf_all. intros i m Hi Hslot.
    rewrite <- MaskBlurFacts.isFilled_dropStr. apply (H i m); [|done].
    by rewrite <- MaskBlurFacts.lookup_list_ascii.
Qed.


Lemma mask_complete_positions_witness :
  MaskBlur.maskComplete "9-9" (Some "_") "1-2" = true.
Proof.
  apply mask_complete_positions. intros i m Hi Hslot.
  destruct i as [|[|[|i]]]; try reflexivity.
  simpl in Hi. discriminate Hi.
Defined.

(** X5. Typing and leaving a masked field, with the configuration the
    dialog saves (a digit mask in the attributes and the same mask in the
    validations, a one-character slot character that is not a digit,
    nothing required, no regex): after the change handler masked a
    non-empty run of digits, the blur handler finds the field valid exactly
    when the digits fill every slot of the mask. *)
Theorem mask_blur_after_typing :
  forall (regExpTest : string -> string -> option bool)
         (field : Field.t) (attributes : FieldAttributes.t)
         (validations : FieldValidations.t)
         (mask : string) (s : ascii) (raw masked : string),
    Field.attributes field = Some attributes ->
    Field.validations field = Some validations ->
    FieldAttributes.mask attributes = Some mask ->
    FieldAttributes.slotChar attributes = Some (Mask.single s) ->
    FieldValidations.mask validations = Some mask ->
    truthyBool (FieldValidations.required validations) = false ->
    FieldValidations.regex validations = None ->
    JsString.isDigit s = false ->
    MaskSpec.digitMask mask = true ->
    JsString.allChars JsString.isDigit raw = true ->
    JsString.nonEmpty mask = true -> JsString.nonEmpty raw = true ->
    Renderer.maskOnChange attributes raw = Invoked masked ->
    Blur.isValid (MaskBlur.maskOnBlur regExpTest field masked)
    = (MaskSpec.digitSlots mask <=? String.length raw)%nat.
Proof.
  intros regExpTest field attributes validations mask s raw masked
         Hattrs Hvals Hmask Hslot Hvmask Hreq Hregex Hs Hdm Hraw Hm Hr Hchange.
  unfold Renderer.maskOnChange in Hchange. rewrite Hmask, Hslot in Hchange.
  cbn [truthyString default Mask.single JsString.nonEmpty] in Hchange.
  rewrite Hm in Hchange. injection Hchange as <-.
  change (String s EmptyString) with (Mask.single s).
  assert (Hne : JsString.nonEmpty (Mask.applyMask raw mask (Mask.single s)) = true)
    by (by apply MaskBlurFacts.applyMask_nonEmpty).
  unfold MaskBlur.maskOnBlur. rewrite Hattrs, Hvals.
  cbn [default from_option id]. cbv zeta.
  rewrite Hreq, Hvmask, Hregex, Hslot, Hm, Hne, andb_false_l.
  rewrite MaskBlurFacts.maskComplete_digits by done.
  cbn [andb Blur.isValid].
  by destruct (MaskSpec.digitSlots mask <=? String.length raw)%nat.
Qed.

Lemma mask_blur_after_typing_witness :
  Blur.isValid
    (MaskBlur.maskOnBlur (fun _ _ => None)
       (MaskSample.maskField Examples.phoneMask "_") "555-1__-____")
  = (MaskSpec.digitSlots Examples.phoneMask <=? String.length "5551")%nat.
Proof.
  apply (mask_blur_after_typing (fun _ _ => None)
           (MaskSample.maskField Examples.phoneMask "_")
           (MaskSample.maskAttributes Examples.phoneMask "_")
           (MaskSample.maskValidations Examples.phoneMask)
           Examples.phoneMask "_" "5551" "555-1__-____");
    reflexivity.
Defined.

(** X6. When the attributes have no slot character, the change handler
    fills the empty slots with the default underscore while the blur
    handler compares with the unset attribute: every non-empty value the
    change handler produced passes the completeness check, so a field with
    nothing required and no regex is found valid however little was
    typed. *)
Theorem mask_blur_unset_slot_char :
  forall (regExpTest : string -> string -> option bool)
         (field : Field.t) (attributes : FieldAttributes.t)
         (validations : FieldValidations.t)
         (mask raw masked : string),
    Field.attributes field = Some attributes ->
    Field.validations field = Some validations ->
    FieldAttributes.mask attributes = Some mask ->
    FieldAttributes.slotChar attributes = None ->
    FieldValidations.mask validations = Some mask ->
    truthyBool (FieldValidations.required validations) = false ->
    FieldValidations.regex validations = None ->
    JsString.nonEmpty mask = true -> JsString.nonEmpty raw = true ->
    Renderer.maskOnChange attributes raw = Invoked masked ->
    MaskBlur.maskComplete mask None masked = true
    /\ Blur.isValid (MaskBlur.maskOnBlur regExpTest field masked) = true.
Proof.
  intros regExpTest field attributes validations mask raw masked
         Hattrs Hvals Hmask Hslot Hvmask Hreq Hregex Hm Hr Hchange.
  unfold Renderer.maskOnChange in Hchange. rewrite Hmask, Hslot in Hchange.
  cbn [truthyString default] in Hchange.
  rewrite Hm in Hchange. injection Hchange as <-.
  assert (Hne : JsString.nonEmpty (Mask.applyMask raw mask Mask.defaultSlotChar) = true)
    by (by apply MaskBlurFacts.applyMask_nonEmpty).
  assert (Hcomplete :
    MaskBlur.maskComplete mask None (Mask.applyMask raw mask Mask.defaultSlotChar) = true)
    by (by apply MaskBlurFacts.maskComplete_unset).
  split; [exact Hcomplete|].
  unfold MaskBlur.maskOnBlur. rewrite Hattrs, Hvals.
  cbn [default from_option id]. cbv zeta.
  rewrite Hreq, Hvmask, Hregex, Hslot, Hm, Hne, andb_false_l, Hcomplete.
  reflexivity.
Qed.

Lemma mask_blur_unset_slot_char_witness :
  MaskBlur.maskComplete Examples.phoneMask None "5__-___-____" = true
  /\ Blur.isValid
       (MaskBlur.maskOnBlur (fun _ _ => None) Examples.noSlotField "5__-___-____")
     = true.
Proof.
  apply (mask_blur_unset_slot_char (fun _ _ => None) Examples.noSlotField
           Examples.noSlotAttributes (MaskSample.maskValidations Examples.phoneMask)
           Examples.phoneMask "5" "5__-___-____");
    reflexivity.
Defined.


(* ===================================================================== *)
(** ** Key filters *)
(* ===================================================================== *)

(** X7. The key filter of the text input lets a value be typed from left
    to right: for each of the eight classes, the empty value is forwarded,
    and when a value is forwarded so is every prefix of it. *)
Theorem keyfilter_prefix_closed :
  forall (k : KeyFilter.KeyClass) (attributes : FieldAttributes.t)
         (v1 v2 : string),
    FieldAttributes.keyfilter attributes = Some (KeyFilter.className k) ->
    KeyFilter.textOnChange attributes EmptyString = Invoked EmptyString
    /\ (KeyFilter.textOnChange attributes (v1 ++ v2) = Invoked (v1 ++ v2) ->
        KeyFilter.textOnChange attributes v1 = Invoked v1).
Proof.
  intros k attributes v1 v2 Hk. split.
  - apply (KeyClassFacts.textOnChange_accepts k attributes EmptyString Hk).
    apply KeyClassFacts.admits_nil.
  - rewrite !(KeyClassFacts.textOnChange_accepts k attributes _ Hk).
    rewrite KeyClassFacts.list_ascii_of_string_app.
    apply KeyClassFacts.admits_prefix.
Qed.

Lemma keyfilter_prefix_closed_witness :
  KeyFilter.textOnChange Examples.numFilter EmptyString = Invoked EmptyString
  /\ KeyFilter.textOnChange Examples.numFilter "-1." = Invoked "-1.".
Proof.
  destruct (keyfilter_prefix_closed KeyFilter.KNum Examples.numFilter "-1." "5" eq_refl)
    as [Hempty Hprefix].
  split; [exact Hempty|]. apply Hprefix. vm_compute. reflexivity.
Defined.

(** X8. The classes are nested: a value the filter forwards under pint is
    forwarded under int, under pnum and under hex; one forwarded under int
    is forwarded under money, one under money or pnum under num, and one
    under hex or alpha under alphanum. *)
Theorem keyfilter_classes_nested :
  forall (k k' : KeyFilter.KeyClass) (attributes attributes' : FieldAttributes.t)
         (v : string),
    In (k, k') KeyClassOrder.narrower ->
    FieldAttributes.keyfilter attributes = Some (KeyFilter.className k) ->
    FieldAttributes.keyfilter attributes' = Some (KeyFilter.className k') ->
    KeyFilter.textOnChange attributes v = Invoked v ->
    KeyFilter.textOnChange attributes' v = Invoked v.
Proof.
  intros k k' attributes attributes' v Hin Hk Hk'.
  rewrite (KeyClassFacts.textOnChange_accepts k attributes v Hk).
  rewrite (KeyClassFacts.textOnChange_accepts k' attributes' v Hk').
  unfold KeyClassOrder.narrower in Hin. simpl in Hin.
  destruct Hin as [H|[H|[H|[H|[H|[H|[H|[H|[]]]]]]]]]; inversion H; subst k k'.
  - apply KeyClassFacts.pint_int.
  - apply KeyClassFacts.int_money.
  - apply KeyClassFacts.money_num.
  - apply KeyClassFacts.pint_pnum.
  - apply KeyClassFacts.pnum_num.
  - apply KeyClassFacts.pint_hex.
  - apply KeyClassFacts.hex_alphanum.
  - apply KeyClassFacts.alpha_alphanum.
Qed.

Lemma keyfilter_classes_nested_witness :
  KeyFilter.textOnChange Examples.numFilter "-12.50" = Invoked "-12.50".
Proof.
  apply (keyfilter_classes_nested KeyFilter.KMoney KeyFilter.KNum
           Examples.moneyFilter Examples.numFilter "-12.50").
  - simpl. tauto.
  - reflexivity.
  - reflexivity.
  - vm_compute. reflexivity.
Defined.

(** X9. The text area filters six of the eight classes: under int, pint,
    num, pnum, alpha and alphanum its change handler does what the handler
    of the text input does, and under money and hex it forwards every
    value. *)
Theorem textarea_filters_six_classes :
  forall (k : KeyFilter.KeyClass) (attributes : FieldAttributes.t) (v : string),
    FieldAttributes.keyfilter attributes = Some (KeyFilter.className k) ->
    TextArea.textareaOnChange attributes v
    = if TextArea.filtered k then KeyFilter.textOnChange attributes v else Invoked v.
Proof.
  intros k attributes v Hk.
  destruct (TextArea.filtered k) eqn:Hf.
  - by apply (TextAreaFacts.textarea_agrees k).
  - by apply (TextAreaFacts.textarea_forwards k).
Qed.

Lemma textarea_filters_six_classes_witness :
  TextArea.textareaOnChange Examples.moneyFilter "12 euros" = Invoked "12 euros"
  /\ KeyFilter.textOnChange Examples.moneyFilter "12 euros" = NotInvoked.
Proof.
  split.
  - apply (textarea_filters_six_classes KeyFilter.KMoney Examples.moneyFilter
             "12 euros" eq_refl).
  - vm_compute. reflexivity.
Defined.


(* ===================================================================== *)
(** ** The configuration dialog *)
(* ===================================================================== *)

(** X10. Deriving an API ID is idempotent: the identifier derived from a
    name derives itself, so typing a derived identifier as a name changes
    nothing. *)
Theorem derive_api_id_idempotent :
  forall name : string,
    Dialog.deriveApiId (Dialog.deriveApiId name) = Dialog.deriveApiId name.
Proof.
  intros name. apply ApiIdFacts.deriveApiId_fixed, DialogFacts.deriveApiId_chars.
Qed.

(** X11. The identifier derived from a name always satisfies the character
    rule of the form schema for apiId; the schema rejects it only when it
    is shorter than two characters. *)
Theorem derived_api_id_passes_schema :
  forall name : string,
    FieldSchema.apiIdAccepted (Dialog.deriveApiId name)
    = (2 <=? String.length (Dialog.deriveApiId name))%nat.
Proof. exact ApiIdFacts.deriveApiId_accepted. Qed.


(** X13. Round trip of the enumeration values through the text area: when
    every stored value is a single line that is not blank, the text shown
    for them (the values joined by line feeds) is read back as the same
    list. *)
Theorem enum_values_round_trip :
  forall values : list string,
    Forall (fun v => EnumValues.singleLine v = true /\ EnumValues.notBlank v = true)
           values ->
    EnumValues.parseValues (EnumValues.defaultText (Some values)) = values.
Proof. exact EnumValuesFacts.parseValues_defaultText. Qed.

Lemma enum_values_round_trip_witness :
  EnumValues.parseValues (EnumValues.defaultText (Some Examples.colours))
  = Examples.colours.
Proof.
  apply enum_values_round_trip.
  repeat constructor.
Defined.

(** X14. Every field kind has a label of its own in the dialog: the label
    is never empty, it is never the fallback Field, and two different kinds
    have different labels. *)
Theorem field_type_labels_distinct :
  forall k k' : FieldTypeEnum,
    JsString.nonEmpty (Labels.getFieldTypeLabel k) = true
    /\ Labels.getFieldTypeLabel k <> "Field"
    /\ (k <> k' -> Labels.getFieldTypeLabel k <> Labels.getFieldTypeLabel k').
Proof.
  intros k k'. split; [apply LabelsFacts.label_not_empty|]. split.
  - destruct k; discriminate.
  - intros Hne Heq. by apply Hne, LabelsFacts.label_injective.
Qed.

Lemma field_type_labels_distinct_witness :
  Labels.getFieldTypeLabel TEXT <> Labels.getFieldTypeLabel TEXTAREA.
Proof.
  apply (proj2 (proj2 (field_type_labels_distinct TEXT TEXTAREA))). discriminate.
Defined.

(** X15. The remove button of the options editor removes the option at its
    index and keeps the others in order; an index past the end removes
    nothing. *)
Theorem remove_option_at_index :
  forall (index : nat) (options : list Options.DropdownOption),
    Options.removeOption index (Some options)
      = (take index options ++ drop (S index) options)%list
    /\ ((List.length options <= index)%nat ->
        Options.removeOption index (Some options) = options).
Proof.
  intros index options.
  rewrite OptionsFacts.removeOption_take_drop. split; [done|].
  intros H. rewrite take_ge, drop_ge by lia. apply app_nil_r.
Qed.

Lemma remove_option_at_index_witness :
  Options.removeOption 5 (Some [Options.blank]) = [Options.blank].
Proof.
  apply (proj2 (remove_option_at_index 5 [Options.blank])). simpl. lia.
Defined.

(** X16. Add Option followed by the remove button of the option just added
    gives back the options there were (none, when the attribute was not
    set). *)
Theorem add_then_remove_option :
  forall options : option (list Options.DropdownOption),
    Options.removeOption (List.length (default [] options))
                         (Some (Options.addOption options))
    = default [] options.
Proof.
  intros options. rewrite OptionsFacts.removeOption_take_drop.
  unfold Options.addOption.
  rewrite take_app_length, drop_ge by (rewrite length_app; simpl; lia).
  apply app_nil_r.
Qed.


(* ===================================================================== *)
(** ** The default fill of the dialog *)
(* ===================================================================== *)

(** X17. The default fill touches only the properties its case assigns:
    every other property of the attributes and of the validations, and so
    every property of a kind without a case, is saved as it was entered. *)
Theorem default_fill_leaves_other_properties :
  forall (type : FieldTypeEnum) (attributes validations : gmap string JsValue)
         (key : string),
    (~ In key (List.map Config.target (Config.attributeDefaults type)) ->
     fst (Config.defaultFill type (Some attributes) (Some validations)) !! key
     = attributes !! key)
    /\ (~ In key (List.map Config.target
                    (Config.validationDefaults type
                       (fst (Config.defaultFill type (Some attributes)
                               (Some validations))))) ->
        snd (Config.defaultFill type (Some attributes) (Some validations)) !! key
        = validations !! key).
Proof.
  intros type attributes validations key. unfold Config.defaultFill. simpl.
  split; intros H; by apply FillFacts.run_frame.
Qed.

Lemma default_fill_leaves_other_properties_witness :
  fst (Config.defaultFill TEXT (Some Examples.customAttributes) (Some Sample.capitalised))
    !! "testId" = Examples.customAttributes !! "testId".
Proof.
  apply (proj1 (default_fill_leaves_other_properties TEXT Examples.customAttributes
                  Sample.capitalised "testId")).
  intros Hin. simpl in Hin.
  repeat (destruct Hin as [Hin|Hin]; [discriminate Hin|]). exact Hin.
Defined.

(** X18. A property the case of a kind fills with a default through the
    or operator is saved as the entered value when that value is truthy and
    as the default otherwise (also when no attributes object was entered);
    so when the default is truthy the saved property is truthy. *)
Theorem default_fill_or_default :
  forall (type : FieldTypeEnum) (attributes validations : option (gmap string JsValue))
         (key : string) (d : JsValue),
    In (Config.OrDefault key d) (Config.attributeDefaults type) ->
    fst (Config.defaultFill type attributes validations) !! key
      = Some (Js.or (Config.getProp (Config.orEmpty attributes) key) d)
    /\ (Js.truthy d = true ->
        Js.truthy (Config.getProp
                     (fst (Config.defaultFill type attributes validations)) key)
        = true).
Proof.
  intros type attributes validations key d Hin. split.
  - by apply DefaultFillFacts.fill_orDefault.
  - intros Hd. by apply (DefaultFillFacts.fill_orDefault_truthy _ _ _ key d).
Qed.

Lemma default_fill_or_default_witness :
  fst (Config.defaultFill TEXT (Some Sample.emptyPlaceholder) None) !! "placeholder"
    = Some (Js.or (Config.getProp (Config.orEmpty (Some Sample.emptyPlaceholder))
                                  "placeholder")
                  (JStr "Enter text..."))
  /\ Js.truthy (Config.getProp
                  (fst (Config.defaultFill TEXT (Some Sample.emptyPlaceholder) None))
                  "placeholder") = true.
Proof.
  destruct (default_fill_or_default TEXT (Some Sample.emptyPlaceholder) None
              "placeholder" (JStr "Enter text...")) as [Hval Htruthy].
  - simpl. tauto.
  - split; [exact Hval|]. apply Htruthy. reflexivity.
Defined.

(** X19. After the default fill of a masked input the attributes always
    carry a truthy mask (the entered one, or 999-999-9999), and unless a
    truthy validation mask was entered the mask of the validations is the
    mask of the attributes. *)
Theorem default_fill_mirrors_mask :
  forall (attributes validations : option (gmap string JsValue)),
    Js.truthy (Config.getProp
                 (fst (Config.defaultFill INPUT_MASK attributes validations)) "mask")
      = true
    /\ (Js.truthy (Config.getProp (Config.orEmpty validations) "mask") = false ->
        Config.getProp (snd (Config.defaultFill INPUT_MASK attributes validations)) "mask"
        = Config.getProp (fst (Config.defaultFill INPUT_MASK attributes validations))
                         "mask").
Proof.
  intros attributes validations. split.
  - apply (DefaultFillFacts.fill_orDefault_truthy INPUT_MASK attributes validations
             "mask" (JStr "999-999-9999")); [simpl; tauto | reflexivity].
  - intros Hv. unfold Config.defaultFill. cbn [fst snd].
    set (filled := Config.run (Config.attributeDefaults INPUT_MASK)
                              (Config.orEmpty attributes)).
    unfold Config.getProp at 1.
    rewrite (FillFacts.run_orDefault _ _ "mask" (Config.getProp filled "mask"));
      [|apply ConfigFacts.validationDefaults_distinct | simpl; tauto].
    simpl. unfold Js.or. by rewrite Hv.
Qed.

Lemma default_fill_mirrors_mask_witness :
  Config.getProp
    (snd (Config.defaultFill INPUT_MASK (Some Examples.dateMaskAttributes) None)) "mask"
  = Config.getProp
      (fst (Config.defaultFill INPUT_MASK (Some Examples.dateMaskAttributes) None)) "mask".
Proof.
  apply (proj2 (default_fill_mirrors_mask (Some Examples.dateMaskAttributes) None)).
  reflexivity.
Defined.


(* ===================================================================== *)
(** ** The number input *)
(* ===================================================================== *)

(** X20. With bounds that are not crossed, the change handler of the number
    input never passes on a number below the minimum or above the maximum:
    whatever the text parses to, the number given to onChange is neither
    less than a configured minimum nor greater than a configured
    maximum. *)
Theorem number_input_stays_within_bounds :
  forall (parseFloat : string -> JsNumber) (attributes : FieldAttributes.t)
         (val : string) (r : JsNumber),
    NumberInput.boundsOrdered attributes ->
    NumberInput.numberOnChange parseFloat attributes val = Invoked (Some r) ->
    (forall lo, FieldAttributes.min attributes = Some lo -> JsNum.lt r lo = false)
    /\ (forall hi, FieldAttributes.max attributes = Some hi -> JsNum.gt r hi = false).
Proof. exact NumberBoundsFacts.numberOnChange_within. Qed.

Lemma number_input_stays_within_bounds_witness :
  JsNum.lt (JsNum.ofZ 100) (JsNum.ofZ 10) = false
  /\ JsNum.gt (JsNum.ofZ 100) (JsNum.ofZ 100) = false.
Proof.
  destruct (number_input_stays_within_bounds NumberInput.parseDigits
              (NumberInput.bounds 10 100) "250" (JsNum.ofZ 100)) as [Hlo Hhi].
  - vm_compute. reflexivity.
  - vm_compute. reflexivity.
  - split; [apply Hlo | apply Hhi]; reflexivity.
Defined.

(* ===================================================================== *)
(** ** Password strength *)
(* ===================================================================== *)

(** X21. A password shorter than eight characters is never rated strong,
    whatever characters it mixes. *)
Theorem short_password_never_strong :
  forall password : string,
    (String.length password < 8)%nat ->
    Password.getPasswordStrength password <> Password.strong.
Proof.
  intros password H.
  rewrite PasswordFacts.getPasswordStrength_classify.
  pose proof (PasswordOrderFacts.satisfied_short password H) as Hle.
  unfold Password.classify.
  destruct (Nat.ltb_spec (Password.satisfied password) 3); [discriminate|].
  destruct (Nat.ltb_spec (Password.satisfied password) 5); [discriminate|lia].
Qed.

Lemma short_password_never_strong_witness :
  Password.getPasswordStrength "aB3$xyz" <> Password.strong.
Proof. apply short_password_never_strong. simpl. lia. Defined.

(** X22. Typing more never lowers the rating: the strength of a password
    followed by further characters is at least the strength of the
    password. *)
Theorem password_strength_monotone :
  forall password more : string,
    (PasswordOrder.rank (Password.getPasswordStrength password)
     <= PasswordOrder.rank (Password.getPasswordStrength (password ++ more)))%nat.
Proof.
  intros password more.
  rewrite !PasswordFacts.getPasswordStrength_classify.
  apply PasswordOrderFacts.classify_monotone, PasswordOrderFacts.satisfied_append.
Qed.

(* ===================================================================== *)
(** ** Field type options *)
(* ===================================================================== *)

(** X23. The icon of a field type option: the question-mark fallback is
    shown exactly for the names of the kinds that have no entry in the icon
    map; a name that is not a kind at all is mapped to TEXT first and gets
    the icon of TEXT, with the warning on the console. *)
Theorem icon_fallback_only_for_unmapped_kinds :
  forall name : string,
    (Icons.iconText (fst (Icons.getIconForFieldType name)) = "?"
     <-> exists k, enumValue k = name /\ Icons.iconMap k = None)
    /\ ((forall k, enumValue k <> name) ->
        Icons.getIconForFieldType name
        = (Icons.mkIcon "bg-green-100" "text-green-700" "Aa",
           [Registry.notFoundWarning name])).
Proof.
  intros name.
  assert (Hunknown : (forall k, enumValue k <> name) ->
            Icons.getIconForFieldType name
            = (Icons.mkIcon "bg-green-100" "text-green-700" "Aa",
               [Registry.notFoundWarning name])).
  { intros H. unfold Icons.getIconForFieldType.
    by rewrite (RegistryFacts.mapFieldTypeNameToEnum_unknown name H). }
  split; [|exact Hunknown].
  destruct (Registry.includes Registry.enumValues name) eqn:Hinc.
  - apply RegistryFacts.asEnum_includes in Hinc as (k & _ & <-).
    unfold Icons.getIconForFieldType.
    rewrite RegistryFacts.mapFieldTypeNameToEnum_member. cbn [fst].
    destruct (Icons.iconMap k) as [info|] eqn:Hk; cbn [default from_option id].
    + split.
      * intros H. by apply IconsFacts.iconMap_text in Hk.
      * intros (k' & Heq & Hnone). apply IconsFacts.enumValue_injective in Heq.
        subst k'. congruence.
    + split; [|reflexivity]. intros _. by exists k.
  - pose proof (proj1 (RegistryFacts.includes_false_iff name) Hinc) as Hno.
    rewrite (Hunknown Hno). cbn [fst Icons.iconText]. split; [discriminate|].
    intros (k & Heq & _). exfalso. exact (Hno k Heq).
Qed.

Lemma icon_fallback_only_for_unmapped_kinds_witness :
  Icons.getIconForFieldType "geo_point"
  = (Icons.mkIcon "bg-green-100" "text-green-700" "Aa",
     [Registry.notFoundWarning "geo_point"]).
Proof.
  apply (proj2 (icon_fallback_only_for_unmapped_kinds "geo_point")).
  intros k. destruct k; discriminate.
Defined.


(* ===================================================================== *)
(** ** The collection editor *)
(* ===================================================================== *)

(** X24. Saving a field that has an id keeps the shape of the collection:
    the list sent to the API has the same ids in the same order, hence the
    same length, as the fields of the collection. *)
Theorem save_existing_field_keeps_ids :
  forall (now : string) (fields : list Collection.StoredField)
         (f : Collection.StoredField),
    truthyString (Collection.id f) = true ->
    exists updated,
      Collection.handleSaveField now (Some fields) f = Some updated
      /\ List.map Collection.id updated = List.map Collection.id fields.
Proof.
  intros now fields f Hid. unfold Collection.handleSaveField. rewrite Hid.
  eexists. split; [reflexivity|].
  rewrite List.map_map. apply List.map_ext. intros g.
  destruct (Collection.sameId (Collection.id g) (Collection.id f)) eqn:Hsame; [|done].
  apply CollectionFacts.sameId_eq in Hsame. by rewrite Hsame.
Qed.

Lemma save_existing_field_keeps_ids_witness :
  exists updated,
    Collection.handleSaveField "1700000000000" (Some [Examples.title; Examples.phone])
                               Examples.titleEdited = Some updated
    /\ List.map Collection.id updated
       = List.map Collection.id [Examples.title; Examples.phone].
Proof. apply save_existing_field_keeps_ids. reflexivity. Defined.

(** X25. Saving a field whose id is carried by no field of the collection
    changes nothing: the list sent to the API is the list of the collection,
    without the edited field. *)
Theorem save_unknown_id_changes_nothing :
  forall (now : string) (fields : list Collection.StoredField)
         (f : Collection.StoredField),
    truthyString (Collection.id f) = true ->
    (forall g, In g fields -> Collection.id g <> Collection.id f) ->
    Collection.handleSaveField now (Some fields) f = Some fields.
Proof.
  intros now fields f Hid Hfresh. unfold Collection.handleSaveField. rewrite Hid.
  f_equal. apply CollectionFacts.map_fixed. intros g Hg.
  destruct (Collection.sameId (Collection.id g) (Collection.id f)) eqn:Hsame; [|done].
  apply CollectionFacts.sameId_eq in Hsame. by destruct (Hfresh g Hg).
Qed.

Lemma save_unknown_id_changes_nothing_witness :
  Collection.handleSaveField "1700000000000" (Some [Examples.title; Examples.phone])
                             Examples.unknownEdited
  = Some [Examples.title; Examples.phone].
Proof.
  apply save_unknown_id_changes_nothing; [reflexivity|].
  intros g [<-|[<-|[]]]; discriminate.
Defined.

(** X26. A field without an id is appended with a temporary id made of the
    time of the save; when no field of the collection carries that id,
    deleting the temporary id afterwards gives back the fields there
    were. *)
Theorem add_then_delete_field :
  forall (now : string) (fields : list Collection.StoredField)
         (f : Collection.StoredField),
    truthyString (Collection.id f) = false ->
    (forall g, In g fields -> Collection.id g <> Some ("temp-" ++ now)) ->
    Collection.handleSaveField now (Some fields) f
      = Some (List.app fields [Collection.mkStored (Some ("temp-" ++ now))
                                                   (Collection.field f)])
    /\ Collection.handleDeleteField
         (Collection.handleSaveField now (Some fields) f) (Some ("temp-" ++ now))
       = Some fields.
Proof.
  intros now fields f Hid Hfresh. unfold Collection.handleSaveField. rewrite Hid.
  split; [reflexivity|].
  unfold Collection.handleDeleteField. rewrite CollectionFacts.tempId_truthy.
  cbn [negb]. f_equal. rewrite List.filter_app. cbn [List.filter Collection.withTempId Collection.id].
  rewrite CollectionFacts.sameId_refl. cbn [negb].
  rewrite EnumValuesFacts.filter_all; [apply app_nil_r|].
  apply Forall_forall. intros g Hg. apply list_elem_of_In in Hg.
  destruct (Collection.sameId (Collection.id g) (Some ("temp-" ++ now))) eqn:Hsame; [|done].
  apply CollectionFacts.sameId_eq in Hsame. by destruct (Hfresh g Hg).
Qed.

Lemma add_then_delete_field_witness :
  Collection.handleDeleteField
    (Collection.handleSaveField "1700000000000" (Some [Examples.title; Examples.phone])
                                Examples.newField)
    (Some ("temp-" ++ "1700000000000"))
  = Some [Examples.title; Examples.phone].
Proof.
  apply (add_then_delete_field "1700000000000" [Examples.title; Examples.phone]
           Examples.newField); [reflexivity|].
  intros g [<-|[<-|[]]]; discriminate.
Defined.

(* ===================================================================== *)
(** ** The media input *)
(* ===================================================================== *)

(** X27. Dropping files on a media input passes on exactly the dropped
    files that the accept list lets through and whose size is within the
    configured limits, in the order they were dropped: all of them when the
    input takes several files, the first of them otherwise; when no dropped
    file qualifies onChange is not called. *)
Theorem media_drop_forwards_admissible_files :
  forall (attributes : Media.Attributes) (files : list Media.File),
    Media.onDrop attributes files
    = match List.filter (Media.admissible attributes) files with
      | [] => NotInvoked
      | first :: others =>
          Invoked (if truthyBool (Media.multiple attributes)
                   then Media.Files (first :: others)
                   else Media.OneFile first)
      end.
Proof.
  intros attributes files. destruct files as [|file files]; [reflexivity|].
  rewrite <- (MediaFacts.validFiles_admissible attributes (file :: files)).
  unfold Media.onDrop. cbv zeta.
  match goal with |- _ = match ?l with [] => _ | _ :: _ => _ end => generalize l end.
  intros valid. by destruct valid.
Qed.


Example media_drop_example :
  Media.onDrop MediaExamples.imagesAndPdf
               [MediaExamples.notes; MediaExamples.scan; MediaExamples.photo]
  = Invoked (Media.OneFile MediaExamples.photo).
Proof. vm_compute. reflexivity. Qed.

(* ===================================================================== *)
(** ** Blur-time validation of the text area *)
(* ===================================================================== *)

(** X28. The blur handler of the text area evaluates three rules and no
    other: it finds the field invalid exactly when the value is empty and
    required, or shorter than a non-zero minLength, or longer than a
    non-zero maxLength. The regex of the validations plays no part. *)
Theorem textarea_blur_rules :
  forall (field : Field.t) (value : string),
    Blur.isValid (Blur.textareaOnBlur field value)
    = negb ((truthyBool (FieldValidations.required
                           (default FieldValidations.empty (Field.validations field)))
             && negb (JsString.nonEmpty value))
            || Blur.minLengthFails
                 (default FieldValidations.empty (Field.validations field)) value
            || Blur.maxLengthFails
                 (default FieldValidations.empty (Field.validations field)) value).
Proof.
  intros field value.
  unfold Blur.textareaOnBlur, Blur.minLengthFails, Blur.maxLengthFails.
  cbv zeta. cbn [Blur.isValid].
  destruct (truthyBool _ && negb (JsString.nonEmpty value));
    destruct (FieldValidations.minLength _) as [lo|];
    destruct (FieldValidations.maxLength _) as [hi|];
    try destruct (JsNum.truthy lo && Blur.shorterThan value lo);
    try destruct (JsNum.truthy hi && Blur.longerThan value hi);
    reflexivity.
Qed.
